(** * Memo_Drive_App: a shallow embedding of the note-capture page

    Two variants of the page are modelled:
    - [Drive] : [src/app.js], which appends notes to a per-day Markdown
      document in a cloud drive folder behind sign-in;
    - [Relay] : [src/unnamed/part_000], which posts every note to a
      webhook relay.

    JavaScript strings are sequences of UTF-16 code units ([jstr]).
    The page's mutable state (the DOM elements the code touches, the
    [STATE]/[appState] record, [localStorage], the remote drive folder)
    is one [world] record threaded through a small state and exception
    monad; every observable effect (status label, blocking notice,
    network request, storage write, scheduled timer) is appended to the
    world's [w_trace], in program order. *)

From Stdlib Require Import ZArith List Bool String Ascii Lia.
Import ListNotations.
Open Scope Z_scope.
Open Scope list_scope.

(* ================================================================= *)
(** ** JavaScript strings *)

(** A JS string: its UTF-16 code units. *)
Definition jstr := list Z.

(** Decoding of a UTF-8 Rocq literal into code units (the literals of
    the sources are all in the Basic Multilingual Plane, so one code
    point is one code unit). *)
Fixpoint utf8_units (s : list ascii) : jstr :=
  match s with
  | [] => []
  | a :: r =>
      let b := Z.of_nat (nat_of_ascii a) in
      if b <? 128 then b :: utf8_units r
      else if b <? 224 then
        match r with
        | b1 :: r1 =>
            ((b - 192) * 64 + (Z.of_nat (nat_of_ascii b1) - 128)) :: utf8_units r1
        | [] => []
        end
      else
        match r with
        | b1 :: b2 :: r2 =>
            ((b - 224) * 4096 + (Z.of_nat (nat_of_ascii b1) - 128) * 64
             + (Z.of_nat (nat_of_ascii b2) - 128)) :: utf8_units r2
        | _ => []
        end
  end.

(** A string literal of the sources. *)
Definition u (s : String.string) : jstr := utf8_units (String.list_ascii_of_string s).

(** ["\n"] *)
Definition nl : jstr := [10].

(** [String.prototype.trim]: the ECMAScript WhiteSpace and
    LineTerminator code units. *)
Definition is_js_ws (c : Z) : bool :=
  existsb (Z.eqb c)
    [9; 10; 11; 12; 13; 32; 160; 5760; 8192; 8193; 8194; 8195; 8196; 8197;
     8198; 8199; 8200; 8201; 8202; 8232; 8233; 8239; 8287; 12288; 65279].

Fixpoint drop_ws (s : jstr) : jstr :=
  match s with
  | c :: r => if is_js_ws c then drop_ws r else s
  | [] => []
  end.

Definition trim (s : jstr) : jstr := rev (drop_ws (rev (drop_ws s))).

(** [String(n)] for an integer [n]: its decimal digits, with ['-'] when
    negative. [fuel] bounds the number of digits. *)
Fixpoint digits (fuel : nat) (n : Z) (acc : jstr) : jstr :=
  match fuel with
  | O => acc
  | S f =>
      if n <? 10 then (48 + n) :: acc
      else digits f (n / 10) ((48 + n mod 10) :: acc)
  end.

Definition z_to_string (n : Z) : jstr :=
  if n <? 0 then 45 :: digits (S (Z.to_nat (- n))) (- n) []
  else digits (S (Z.to_nat n)) n [].

(** [s.padStart(len, fill)] with a one-unit [fill]. *)
Definition pad_start (len : nat) (fill : Z) (s : jstr) : jstr :=
  if (List.length s <? len)%nat then repeat fill (len - List.length s) ++ s else s.

Example z_to_string_2026 : z_to_string 2026 = u "2026".
Proof. reflexivity. Qed.

Example pad_start_2 : pad_start 2 48 (z_to_string 2) = u "02".
Proof. reflexivity. Qed.

Example trim_ideographic_space :
  trim (u "　 買い物リスト
") = u "買い物リスト".
Proof. reflexivity. Qed.

(* ================================================================= *)
(** ** Data model *)

(** One queued note of [localStorage['pending_memos']]; the queue is
    kept decoded (JSON encoding and decoding of such records round-trip). *)
Record pending_memo := mkMemo { pm_text : jstr; pm_timestamp : jstr }.

(** A thrown failure, by the three views the handlers take of it:
    [err.result?.error?.message], [err.message] and [JSON.stringify(err)].
    An absent or [undefined] field is the empty string: both are falsy. *)
Record jerror := mkErr {
  err_result_message : jstr;
  err_message : jstr;
  err_dump : jstr
}.

(** The transport outcome of one outbound call. *)
Inductive outcome := Success | Fault (e : jerror).

(** Outbound requests. *)
Inductive request :=
  (** Relay: [fetch(gasUrl, {method: 'POST', body: {text, timestamp}})] *)
  | ReqRelay (url text timestamp : jstr)
  (** Drive: [files.list] with [name = '..' and '..' in parents and trashed = false] *)
  | ReqList (name folder : jstr)
  (** Drive: [files.get({fileId, alt: 'media'})] *)
  | ReqGet (file_id : jstr)
  (** Drive: multipart [PATCH /upload/drive/v3/files/<id>] *)
  | ReqPatch (file_id : jstr) (body : jstr)
  (** Drive: multipart [POST /upload/drive/v3/files] *)
  | ReqPost (body : jstr).

(** Observable effects, in program order. *)
Inductive event :=
  | EvStatus (text kind : jstr)            (** [updateStatus(text, kind)] *)
  | EvNet (r : request) (ok : bool)        (** an outbound call and whether it faulted *)
  | EvAlert (msg : jstr)                   (** [alert(msg)] *)
  | EvStoreSet (q : list pending_memo)     (** [localStorage.setItem('pending_memos', ..)] *)
  | EvStoreRemove                          (** [localStorage.removeItem('pending_memos')] *)
  | EvTimer (ms : Z) (text kind : jstr).   (** [setTimeout(() => updateStatus(..), ms)] *)

(** A document of the drive. *)
Record dfile := mkFile {
  f_id : jstr;
  f_name : jstr;
  f_parents : list jstr;
  f_trashed : bool;
  f_mime : jstr;
  f_body : jstr
}.

(** [new Date()] at the moment of the handler (local calendar fields as
    [getFullYear], [getMonth], [getDate], [getHours], [getMinutes], and
    [toISOString()]). *)
Record clock := mkClock {
  c_year : Z; c_month : Z; c_day : Z; c_hour : Z; c_minute : Z;
  c_iso : jstr
}.

(** The page and its environment. *)
Record world := mkWorld {
  w_memo : jstr;                         (** memoText.value *)
  w_save_disabled : bool;                (** saveBtn.disabled *)
  w_online : bool;                       (** STATE.isOnline *)
  w_auth : bool;                         (** STATE.isAuthenticated (drive) *)
  w_listening : bool;                    (** STATE.isListening *)
  w_pending : option (list pending_memo);(** localStorage 'pending_memos' *)
  w_drive : list dfile;                  (** the remote drive *)
  w_fresh : Z;                           (** next id the drive hands out *)
  w_net : list outcome;                  (** outcomes of the coming outbound calls *)
  w_clock : clock;
  w_trace : list event
}.

(** Configuration record ([window.APP_CONFIG]). *)
Record config := mkConfig { cfg_gas_url : jstr; cfg_folder_id : jstr }.

(* ================================================================= *)
(** ** Effects: a state and exception monad over [world] *)

Inductive res (A : Type) := Ok (a : A) | Exc (e : jerror).
Arguments Ok {A} a.
Arguments Exc {A} e.

Definition M (A : Type) := world -> res A * world.

Definition ret {A} (a : A) : M A := fun w => (Ok a, w).

Definition bind {A B} (m : M A) (k : A -> M B) : M B :=
  fun w => match m w with
           | (Ok a, w') => k a w'
           | (Exc e, w') => (Exc e, w')
           end.

Notation "x <- m ;; k" := (bind m (fun x => k))
  (at level 61, m at next level, right associativity).
Notation "m ;;; k" := (bind m (fun _ => k))
  (at level 61, right associativity).

Definition throw {A} (e : jerror) : M A := fun w => (Exc e, w).

(** [try { m } catch (e) { h(e) }] *)
Definition try_catch {A} (m : M A) (h : jerror -> M A) : M A :=
  fun w => match m w with
           | (Exc e, w') => h e w'
           | r => r
           end.

Definition get : M world := fun w => (Ok w, w).
Definition modify (f : world -> world) : M unit := fun w => (Ok tt, f w).

Definition emit (ev : event) : M unit :=
  modify (fun w => mkWorld (w_memo w) (w_save_disabled w) (w_online w) (w_auth w)
                     (w_listening w) (w_pending w) (w_drive w) (w_fresh w)
                     (w_net w) (w_clock w) (w_trace w ++ [ev])).

Definition set_memo (s : jstr) : M unit :=
  modify (fun w => mkWorld s (w_save_disabled w) (w_online w) (w_auth w)
                     (w_listening w) (w_pending w) (w_drive w) (w_fresh w)
                     (w_net w) (w_clock w) (w_trace w)).

Definition set_save_disabled (b : bool) : M unit :=
  modify (fun w => mkWorld (w_memo w) b (w_online w) (w_auth w)
                     (w_listening w) (w_pending w) (w_drive w) (w_fresh w)
                     (w_net w) (w_clock w) (w_trace w)).

Definition set_online (b : bool) : M unit :=
  modify (fun w => mkWorld (w_memo w) (w_save_disabled w) b (w_auth w)
                     (w_listening w) (w_pending w) (w_drive w) (w_fresh w)
                     (w_net w) (w_clock w) (w_trace w)).

Definition set_auth (b : bool) : M unit :=
  modify (fun w => mkWorld (w_memo w) (w_save_disabled w) (w_online w) b
                     (w_listening w) (w_pending w) (w_drive w) (w_fresh w)
                     (w_net w) (w_clock w) (w_trace w)).

Definition set_listening (b : bool) : M unit :=
  modify (fun w => mkWorld (w_memo w) (w_save_disabled w) (w_online w) (w_auth w)
                     b (w_pending w) (w_drive w) (w_fresh w)
                     (w_net w) (w_clock w) (w_trace w)).

Definition set_pending (q : option (list pending_memo)) : M unit :=
  modify (fun w => mkWorld (w_memo w) (w_save_disabled w) (w_online w) (w_auth w)
                     (w_listening w) q (w_drive w) (w_fresh w)
                     (w_net w) (w_clock w) (w_trace w)).

Definition set_drive (d : list dfile) (fresh : Z) : M unit :=
  modify (fun w => mkWorld (w_memo w) (w_save_disabled w) (w_online w) (w_auth w)
                     (w_listening w) (w_pending w) d fresh
                     (w_net w) (w_clock w) (w_trace w)).

(** One outbound call: it takes the next transport outcome (a call with
    no scripted outcome goes through), records itself in the trace, and
    rejects with the fault if there is one. *)
Definition transport (r : request) : M unit :=
  fun w =>
    let '(o, rest) := match w_net w with
                      | [] => (Success, [])
                      | o :: os => (o, os)
                      end in
    let w' := mkWorld (w_memo w) (w_save_disabled w) (w_online w) (w_auth w)
                (w_listening w) (w_pending w) (w_drive w) (w_fresh w)
                rest (w_clock w)
                (w_trace w ++ [EvNet r (match o with Success => true | Fault _ => false end)]) in
    match o with
    | Success => (Ok tt, w')
    | Fault e => (Exc e, w')
    end.

(** [updateStatus(text, type)] / [updateAppStatusMessage(text, dotType)] *)
Definition update_status (text kind : jstr) : M unit := emit (EvStatus text kind).

(** [localStorage.getItem('pending_memos') || '[]'], JSON-decoded. *)
Definition read_pending : M (list pending_memo) :=
  w <- get ;; ret (match w_pending w with Some q => q | None => [] end).

(** [saveToLocal(text)] / [saveTextLocally(text)] *)
Definition save_to_local (text : jstr) : M unit :=
  pending <- read_pending ;;
  w <- get ;;
  let pending' := pending ++ [mkMemo text (c_iso (w_clock w))] in
  set_pending (Some pending') ;;;
  emit (EvStoreSet pending').

(* ================================================================= *)
(** ** Helpers shared by both variants *)

Definition jstr_eqb (a b : jstr) : bool :=
  if list_eq_dec Z.eq_dec a b then true else false.

(** [a || b] on strings: [a] unless it is falsy (empty). *)
Definition js_or (a b : jstr) : jstr :=
  match a with [] => b | _ => a end.

(** [JSON.stringify] of a string value. *)
Definition json_escape (c : Z) : jstr :=
  if c =? 34 then [92; 34]
  else if c =? 92 then [92; 92]
  else if c =? 8 then u "\b"
  else if c =? 12 then u "\f"
  else if c =? 10 then u "\n"
  else if c =? 13 then u "\r"
  else if c =? 9 then u "\t"
  else if c <? 32 then u "\u00" ++ [48 + c / 16; let d := c mod 16 in if d <? 10 then 48 + d else 87 + d]
  else [c].

Definition json_string (s : jstr) : jstr := [34] ++ flat_map json_escape s ++ [34].

(** [toLocaleTimeString('ja-JP', {hour: '2-digit', minute: '2-digit'})] *)
Definition locale_time (c : clock) : jstr :=
  pad_start 2 48 (z_to_string (c_hour c)) ++ u ":" ++
  pad_start 2 48 (z_to_string (c_minute c)).

(** [toLocaleString('ja-JP', {year: 'numeric', month: '2-digit',
    day: '2-digit', hour: '2-digit', minute: '2-digit'})] *)
Definition locale_date_time (c : clock) : jstr :=
  z_to_string (c_year c) ++ u "/" ++
  pad_start 2 48 (z_to_string (c_month c + 1)) ++ u "/" ++
  pad_start 2 48 (z_to_string (c_day c)) ++ u " " ++ locale_time c.

(** Speech recognition results: [event.results[i].isFinal] and
    [event.results[i][0].transcript]. *)
Record sr_result := mkResult { sr_is_final : bool; sr_transcript : jstr }.
Record sr_event := mkSrEvent { ev_result_index : nat; ev_results : list sr_result }.

(** The loop of [onresult]:
    [for (let i = event.resultIndex; i < event.results.length; ++i)
       if (event.results[i].isFinal) finalTranscript += event.results[i][0].transcript;] *)
Definition final_transcript (ev : sr_event) : jstr :=
  fold_left (fun acc r => if sr_is_final r then acc ++ sr_transcript r else acc)
    (skipn (ev_result_index ev) (ev_results ev)) [].

(** [recognition.onresult] / [voiceRecognizer.onresult] (the two are
    the same code). *)
Definition on_result (ev : sr_event) : M unit :=
  let ft := final_transcript ev in
  match ft with
  | [] => ret tt
  | _ =>
      w <- get ;;
      let separator := if (0 <? List.length (w_memo w))%nat then nl else [] in
      set_memo (w_memo w ++ separator ++ ft) ;;;
      set_save_disabled false
  end.

(** The editor's [input] listener. *)
Definition on_input : M unit :=
  w <- get ;;
  set_save_disabled (match trim (w_memo w) with [] => true | _ => false end).

(* ================================================================= *)
(** ** Drive variant: [src/app.js] *)

Module Drive.

Section WithConfig.
Variable cfg : config.

(** [getFileName()] *)
Definition getFileName (c : clock) : jstr :=
  let y := z_to_string (c_year c) in
  let m := pad_start 2 48 (z_to_string (c_month c + 1)) in
  let d := pad_start 2 48 (z_to_string (c_day c)) in
  y ++ u "-" ++ m ++ u "-" ++ d ++ u ".md".

(** The files a [files.list] query
    [name = '<name>' and '<folder>' in parents and trashed = false]
    returns. *)
Definition query_files (name folder : jstr) (d : list dfile) : list dfile :=
  filter (fun f => jstr_eqb (f_name f) name
                   && existsb (jstr_eqb folder) (f_parents f)
                   && negb (f_trashed f)) d.

Definition body_of (id : jstr) (d : list dfile) : jstr :=
  match find (fun f => jstr_eqb (f_id f) id) d with
  | Some f => f_body f
  | None => []
  end.

Definition mime_md : jstr := u "text/markdown".

(** The multipart request body, around [JSON.stringify(metadata)]. *)
Definition multipart (meta content : jstr) : jstr :=
  u "--foo_bar_baz" ++ nl ++ u "Content-Type: application/json; charset=UTF-8" ++ nl ++ nl ++
  meta ++
  nl ++ u "--foo_bar_baz" ++ nl ++ u "Content-Type: text/markdown" ++ nl ++ nl ++
  content ++
  nl ++ u "--foo_bar_baz--".

(** [JSON.stringify({name, mimeType: 'text/markdown'})] *)
Definition update_meta (name : jstr) : jstr :=
  u "{" ++ json_string (u "name") ++ u ":" ++ json_string name ++ u "," ++
  json_string (u "mimeType") ++ u ":" ++ json_string mime_md ++ u "}".

(** [JSON.stringify({name, mimeType: 'text/markdown', parents: [folderId]})] *)
Definition create_meta (name folder : jstr) : jstr :=
  u "{" ++ json_string (u "name") ++ u ":" ++ json_string name ++ u "," ++
  json_string (u "mimeType") ++ u ":" ++ json_string mime_md ++ u "," ++
  json_string (u "parents") ++ u ":[" ++ json_string folder ++ u "]}".

(** [const newEntry = `\n## ${time}\n${content}\n`] *)
Definition new_entry (time content : jstr) : jstr :=
  nl ++ u "## " ++ time ++ nl ++ content ++ nl.

(** The drive after a successful PATCH of file [id]. *)
Definition patch_file (id name body : jstr) (d : list dfile) : list dfile :=
  map (fun f => if jstr_eqb (f_id f) id
                then mkFile (f_id f) name (f_parents f) (f_trashed f) mime_md body
                else f) d.

(** [saveToDrive(content)] *)
Definition saveToDrive (content : jstr) : M unit :=
  w0 <- get ;;
  let fileName := getFileName (w_clock w0) in
  let folderId := cfg_folder_id cfg in
  found <- try_catch
    (transport (ReqList fileName folderId) ;;;
     w1 <- get ;;
     match query_files fileName folderId (w_drive w1) with
     | f :: _ =>
         transport (ReqGet (f_id f)) ;;;
         w2 <- get ;;
         ret (Some (f_id f), body_of (f_id f) (w_drive w2))
     | [] => ret (None, [])
     end)
    (fun err => throw err) ;;
  let '(fileId, currentContent) := found in
  w3 <- get ;;
  let time := locale_time (w_clock w3) in
  let newEntry := new_entry time content in
  let finalContent := trim (currentContent ++ newEntry) in
  match fileId with
  | Some id =>
      transport (ReqPatch id (multipart (update_meta fileName) finalContent)) ;;;
      w4 <- get ;;
      set_drive (patch_file id fileName finalContent (w_drive w4)) (w_fresh w4)
  | None =>
      transport (ReqPost (multipart (create_meta fileName folderId) finalContent)) ;;;
      w4 <- get ;;
      let id := u "f" ++ z_to_string (w_fresh w4) in
      set_drive (w_drive w4 ++ [mkFile id fileName [folderId] false mime_md finalContent])
                (w_fresh w4 + 1)
  end.

(** [err.result?.error?.message || err.message || JSON.stringify(err)] *)
Definition errMsg (err : jerror) : jstr :=
  js_or (err_result_message err) (js_or (err_message err) (err_dump err)).

Definition alert_prefix : jstr := u "保存に失敗しました: ".

(** [updateStatus('Saving...', 'syncing'); els.saveBtn.disabled = true;] *)
Definition saving_prelude : M unit :=
  update_status (u "Saving...") (u "syncing") ;;; set_save_disabled true.

(** [els.saveBtn.onclick] *)
Definition saveBtn_onclick : M unit :=
  w <- get ;;
  let text := trim (w_memo w) in
  match text with
  | [] => ret tt
  | _ =>
    saving_prelude ;;;
    if w_online w && w_auth w then
      try_catch
        (saveToDrive text ;;;
         set_memo [] ;;;
         update_status (u "Saved!") (u "online") ;;;
         emit (EvTimer 2000 (u "ONLINE") (u "online")))
        (fun err =>
           save_to_local text ;;;
           emit (EvAlert (alert_prefix ++ errMsg err)) ;;;
           update_status (u "Saved Locally (Sync later)") (u "offline"))
    else
      save_to_local text ;;;
      set_memo [] ;;;
      update_status (u "Saved Locally") (u "offline") ;;;
      emit (EvTimer 2000 (u "OFFLINE") (u "offline"))
  end.

(** [combinedText += `\n(Synced from offline)\n${item.text}\n`] *)
Definition synced_entry (item : pending_memo) : jstr :=
  nl ++ u "(Synced from offline)" ++ nl ++ pm_text item ++ nl.

Definition combined_text (pending : list pending_memo) : jstr :=
  fold_left (fun acc item => acc ++ synced_entry item) pending [].

(** [syncPendingData()] *)
Definition syncPendingData : M unit :=
  w <- get ;;
  if negb (w_auth w) || negb (w_online w) then ret tt else
  pending <- read_pending ;;
  match pending with
  | [] => ret tt
  | _ =>
    update_status (u "Syncing...") (u "syncing") ;;;
    let combinedText := combined_text pending in
    try_catch
      (saveToDrive combinedText ;;;
       set_pending None ;;;
       emit EvStoreRemove ;;;
       update_status (u "Synced!") (u "online") ;;;
       emit (EvTimer 2000 (u "ONLINE") (u "online")))
      (fun _ => update_status (u "Sync Failed") (u "offline"))
  end.

End WithConfig.

End Drive.

(** The page's handlers in the drive variant, by the event that fires them. *)
Inductive ui_event :=
  | UInput (value : jstr)        (** the user edits the editor; [input] fires *)
  | UResult (ev : sr_event)      (** [recognition.onresult] *)
  | UClickSave                   (** a click on the save control *)
  | URecStart                    (** [recognition.onstart] *)
  | URecEnd                      (** [recognition.onend] *)
  | UOnline                      (** [window] 'online' *)
  | UOffline                     (** [window] 'offline' *)
  | UAuthOk                      (** the token callback with no [resp.error] *)
  | UTimer (text kind : jstr).   (** a scheduled [updateStatus] fires *)

Module DrivePage.

Definition dispatch (cfg : config) (e : ui_event) : M unit :=
  match e with
  | UInput v => set_memo v ;;; on_input
  | UResult ev => on_result ev
  | UClickSave =>
      (* a disabled button fires no click *)
      w <- get ;; if w_save_disabled w then ret tt else Drive.saveBtn_onclick cfg
  | URecStart => set_listening true ;;; update_status (u "Listening...") (u "syncing")
  | URecEnd =>
      set_listening false ;;;
      w <- get ;;
      if w_online w then update_status (u "ONLINE") (u "online")
      else update_status (u "OFFLINE") (u "offline")
  | UOnline =>
      set_online true ;;; update_status (u "ONLINE") (u "online") ;;;
      Drive.syncPendingData cfg
  | UOffline => set_online false ;;; update_status (u "OFFLINE") (u "offline")
  | UAuthOk =>
      set_auth true ;;; update_status (u "ONLINE (AUTHED)") (u "online") ;;;
      Drive.syncPendingData cfg
  | UTimer text kind => update_status text kind
  end.

(** [checkOnlineStatus()], by [navigator.onLine]. *)
Definition checkOnlineStatus (nav_online : bool) : M unit :=
  if nav_online then update_status (u "ONLINE") (u "online")
  else update_status (u "OFFLINE") (u "offline").

(** [renderAuthButton()], run once both Google libraries are ready: a
    token kept by [gapi.client] marks the page signed in; without one
    the page shows a sign-in button (a DOM element outside the world). *)
Definition renderAuthButton (has_token : bool) : M unit :=
  if has_token then
    set_auth true ;;; update_status (u "ONLINE (AUTHED)") (u "online")
  else ret tt.

End DrivePage.

(* ================================================================= *)
(** ** Relay variant: [src/unnamed/part_000] *)

Module Relay.

Section WithConfig.
Variable cfg : config.

(** [sendMemoToSheet(content)] *)
Definition sendMemoToSheet (content : jstr) : M unit :=
  w <- get ;;
  let timestamp := locale_date_time (w_clock w) in
  transport (ReqRelay (cfg_gas_url cfg) content timestamp).

Definition alert_prefix : jstr := u "保存に失敗しました（端末内に仮保存しました）: ".

(** [error.message || JSON.stringify(error)] *)
Definition errorMessage (err : jerror) : jstr :=
  js_or (err_message err) (err_dump err).

(** [handleSaveFailure(text, error)] *)
Definition handleSaveFailure (text : jstr) (err : jerror) : M unit :=
  save_to_local text ;;;
  emit (EvAlert (alert_prefix ++ errorMessage err)) ;;;
  update_status (u "端末内に仮保存済（後で同期します）") (u "offline").

(** [updateAppStatusMessage('保存中...', 'syncing'); saveBtn.disabled = true;] *)
Definition saving_prelude : M unit :=
  update_status (u "保存中...") (u "syncing") ;;; set_save_disabled true.

(** [domElements.saveBtn.onclick] *)
Definition saveBtn_onclick : M unit :=
  w <- get ;;
  let textToSave := trim (w_memo w) in
  match textToSave with
  | [] => ret tt
  | _ =>
    saving_prelude ;;;
    if w_online w then
      try_catch
        (sendMemoToSheet textToSave ;;;
         set_memo [] ;;;
         update_status (u "保存しました！") (u "online") ;;;
         emit (EvTimer 2000 (u "ONLINE") (u "online")))
        (fun err => handleSaveFailure textToSave err)
    else
      save_to_local textToSave ;;;
      set_memo [] ;;;
      update_status (u "端末内に仮保存しました") (u "offline") ;;;
      emit (EvTimer 2000 (u "OFFLINE") (u "offline"))
  end.

Definition offline_marker : jstr := u "(オフライン時の仮保存) ".

(** [for (const memo of pendingMemos) await sendMemoToSheet(`(..) ${memo.text}`);] *)
Fixpoint send_all (memos : list pending_memo) : M unit :=
  match memos with
  | [] => ret tt
  | memo :: rest => sendMemoToSheet (offline_marker ++ pm_text memo) ;;; send_all rest
  end.

(** [syncOfflineMemosToSheet()] *)
Definition syncOfflineMemosToSheet : M unit :=
  w <- get ;;
  if negb (w_online w) then ret tt else
  pendingMemos <- read_pending ;;
  match pendingMemos with
  | [] => ret tt
  | _ =>
    update_status (u "同期中...") (u "syncing") ;;;
    try_catch
      (send_all pendingMemos ;;;
       set_pending None ;;;
       emit EvStoreRemove ;;;
       update_status (u "同期完了！") (u "online") ;;;
       emit (EvTimer 2000 (u "ONLINE") (u "online")))
      (fun _ => update_status (u "同期失敗（後で再試行します）") (u "offline"))
  end.

End WithConfig.

End Relay.

Module RelayPage.

Definition dispatch (cfg : config) (e : ui_event) : M unit :=
  match e with
  | UInput v => set_memo v ;;; on_input
  | UResult ev => on_result ev
  | UClickSave =>
      w <- get ;; if w_save_disabled w then ret tt else Relay.saveBtn_onclick cfg
  | URecStart => set_listening true ;;; update_status (u "音声を聞き取り中...") (u "syncing")
  | URecEnd =>
      set_listening false ;;;
      w <- get ;;
      if w_online w then update_status (u "ONLINE") (u "online")
      else update_status (u "OFFLINE") (u "offline")
  | UOnline =>
      set_online true ;;; update_status (u "ONLINE") (u "online") ;;;
      Relay.syncOfflineMemosToSheet cfg
  | UOffline => set_online false ;;; update_status (u "OFFLINE") (u "offline")
  | UAuthOk => ret tt   (* this variant has no sign-in *)
  | UTimer text kind => update_status text kind
  end.

(** [updateOnlineStatusDisplay()], by [navigator.onLine]. *)
Definition updateOnlineStatusDisplay (nav_online : bool) : M unit :=
  if nav_online then update_status (u "ONLINE") (u "online")
  else update_status (u "OFFLINE") (u "offline").

(** [checkOfflineUnsavedMemos()]: it reads the queue; its only output is
    a console line. *)
Definition checkOfflineUnsavedMemos : M unit :=
  pendingMemos <- read_pending ;; ret tt.

(** The window [load] listener. [initializeDateDisplay()] writes the date
    label, which is not part of the world. *)
Definition on_load (cfg : config) (nav_online : bool) : M unit :=
  updateOnlineStatusDisplay nav_online ;;;
  checkOfflineUnsavedMemos ;;;
  w <- get ;;
  if w_online w then Relay.syncOfflineMemosToSheet cfg else ret tt.

End RelayPage.

(* ================================================================= *)
(** ** Sample inputs *)

Definition cfg0 : config := mkConfig (u "https://script.example/exec") (u "FOLDER").

Definition clock0 : clock :=
  mkClock 2026 1 20 9 5 (u "2026-02-20T00:05:00.000Z").

Definition world0 (memo : jstr) (online auth : bool) (q : option (list pending_memo))
  (d : list dfile) (net : list outcome) : world :=
  mkWorld memo false online auth false q d 0 net clock0 [].

(** The day's document as a previous save left it. *)
Definition day_file0 (body : jstr) : dfile :=
  mkFile (u "f0") (u "2026-02-20.md") [u "FOLDER"] false Drive.mime_md body.

Definition err0 : jerror := mkErr (u "Quota exceeded") (u "Request failed") (u "{}").

Definition memo0 : pending_memo := mkMemo (u "牛乳") (u "2026-02-19T10:00:00.000Z").

(** Online, signed in, with a note in the editor; the first call faults. *)
Definition wfail0 : world := world0 (u "買い物リスト") true true None [] [Fault err0].

(** Online, signed in, one queued note; every call goes through. *)
Definition wsync0 : world := world0 [] true true (Some [memo0]) [] [].

(** Offline with a note in the editor. *)
Definition woff0 : world := world0 (u "買い物リスト") false false None [] [].

(** Online, signed in, the day's document already in the folder. *)
Definition wday0 : world := world0 [] true true None [day_file0 (u "A")] [].

Definition sr_final0 : sr_event := mkSrEvent 0 [mkResult true (u "こんにちは")].

Definition sr_interim0 : sr_event := mkSrEvent 0 [mkResult false (u "こん")].

Example getFileName_sample : Drive.getFileName clock0 = u "2026-02-20.md".
Proof. reflexivity. Qed.

Example offline_save_sample :
  let w := snd (Drive.saveBtn_onclick cfg0 (world0 (u "買い物リスト") false false None [] [])) in
  w_pending w = Some [mkMemo (u "買い物リスト") (c_iso clock0)] /\ w_memo w = [].
Proof. split; reflexivity. Qed.

(* ================================================================= *)
(** ** Observations on worlds and traces *)

(** The decoded queue, [[]] when the key is absent. *)
Definition queue (w : world) : list pending_memo :=
  match w_pending w with Some q => q | None => [] end.

(** The page-side state: everything but the remote drive, the transport
    script and the trace. *)
Definition same_page (w w' : world) : Prop :=
  w_memo w' = w_memo w /\ w_save_disabled w' = w_save_disabled w /\
  w_online w' = w_online w /\ w_auth w' = w_auth w /\
  w_listening w' = w_listening w /\ w_pending w' = w_pending w /\
  w_clock w' = w_clock w.

Definition is_net (ev : event) : Prop := exists r ok, ev = EvNet r ok.

(** Some outbound call in [l] faulted. *)
Definition faulted (l : list event) : Prop := exists r, In (EvNet r false) l.

(** No outbound call in [l]. *)
Definition net_free (l : list event) : Prop := forall r ok, ~ In (EvNet r ok) l.

(** A computation that only talks to the network: it leaves the page
    alone, adds only network events to the trace, and rejects exactly
    when one of its calls faulted. *)
Definition remote {A} (m : M A) : Prop :=
  forall w,
    same_page w (snd (m w)) /\
    exists l, w_trace (snd (m w)) = w_trace w ++ l /\ Forall is_net l /\
      match fst (m w) with Ok _ => ~ faulted l | Exc _ => faulted l end.

(** [w] after calls that left the transport script [net] and recorded [l]. *)
Definition with_net_trace (w : world) (net : list outcome) (l : list event) : world :=
  mkWorld (w_memo w) (w_save_disabled w) (w_online w) (w_auth w) (w_listening w)
    (w_pending w) (w_drive w) (w_fresh w) net (w_clock w) (w_trace w ++ l).

(** The relay call that forwards queued note [m] at clock [c]. *)
Definition relay_sent (cfg : config) (c : clock) (ok : bool) (m : pending_memo) : event :=
  EvNet (ReqRelay (cfg_gas_url cfg) (Relay.offline_marker ++ pm_text m) (locale_date_time c)) ok.

(** Splitting lines at ["\n"]. *)
Fixpoint lines_acc (s : jstr) (cur : jstr) : list jstr :=
  match s with
  | [] => [rev cur]
  | c :: r => if c =? 10 then rev cur :: lines_acc r [] else lines_acc r (c :: cur)
  end.

Definition lines (s : jstr) : list jstr := lines_acc s [].

(* ================================================================= *)
(** ** Proofs *)

Arguments u s : simpl never.
Arguments Drive.saveToDrive cfg content : simpl never.
Arguments Relay.sendMemoToSheet cfg content : simpl never.
Arguments Relay.send_all cfg memos : simpl never.

Lemma same_page_refl w : same_page w w.
Proof. repeat split. Qed.

Lemma same_page_trans w1 w2 w3 :
  same_page w1 w2 -> same_page w2 w3 -> same_page w1 w3.
Proof.
  unfold same_page; intros (?&?&?&?&?&?&?) (?&?&?&?&?&?&?).
  repeat split; congruence.
Qed.

Lemma remote_ret {A} (a : A) : remote (ret a).
Proof.
  intros w; split; [apply same_page_refl|].
  exists []; rewrite app_nil_r; split; [reflexivity|split; [constructor|]].
  intros [r H]; inversion H.
Qed.

Lemma remote_get : remote get.
Proof.
  intros w; split; [apply same_page_refl|].
  exists []; rewrite app_nil_r; split; [reflexivity|split; [constructor|]].
  intros [r H]; inversion H.
Qed.

Lemma remote_set_drive d n : remote (set_drive d n).
Proof.
  intros [] ; split; [repeat split|].
  exists []; cbn; rewrite app_nil_r; split; [reflexivity|split; [constructor|]].
  intros [r H]; inversion H.
Qed.

Lemma remote_transport r : remote (transport r).
Proof.
  intros [memo dis on au li pe dr fr ne cl tr]; unfold transport; cbn.
  destruct ne as [|[|e] os]; cbn; (split; [repeat split|]); eexists;
    (split; [reflexivity|split; [repeat econstructor|]]).
  - intros [r' [H|H]]; [discriminate|inversion H].
  - intros [r' [H|H]]; [discriminate|inversion H].
  - exists r; now left.
Qed.

Lemma remote_bind {A B} (m : M A) (k : A -> M B) :
  remote m -> (forall a, remote (k a)) -> remote (bind m k).
Proof.
  intros Hm Hk w; unfold bind.
  destruct (Hm w) as [Hs1 [l1 [Ht1 [Hn1 Hr1]]]].
  destruct (m w) as [[a|e] w1] eqn:E; cbn in *.
  - destruct (Hk a w1) as [Hs2 [l2 [Ht2 [Hn2 Hr2]]]].
    split; [eapply same_page_trans; eauto|].
    exists (l1 ++ l2); split; [rewrite Ht2, Ht1, app_assoc; reflexivity|].
    split; [apply Forall_app; auto|].
    destruct (fst (k a w1)); unfold faulted in *.
    + intros [r Hin]; apply in_app_or in Hin as [Hin|Hin]; eauto.
    + destruct Hr2 as [r Hin]; exists r; apply in_or_app; auto.
  - split; [assumption|]; exists l1.
    split; [assumption|split; [assumption|exact Hr1]].
Qed.

Lemma remote_rethrow {A} (m : M A) : remote m -> remote (try_catch m (fun err => throw err)).
Proof.
  intros Hm w; unfold try_catch.
  destruct (Hm w) as [Hs Hl]; destruct (m w) as [[a|e] w1]; exact (conj Hs Hl).
Qed.

Ltac remote_steps :=
  repeat first
    [ apply remote_ret | apply remote_get | apply remote_transport
    | apply remote_set_drive | apply remote_rethrow
    | apply remote_bind; intros; cbv beta
    | match goal with |- remote (match ?x with _ => _ end) => destruct x end ].

Lemma saveToDrive_remote cfg content : remote (Drive.saveToDrive cfg content).
Proof. unfold Drive.saveToDrive; cbv zeta; remote_steps. Qed.

Lemma sendMemoToSheet_remote cfg content : remote (Relay.sendMemoToSheet cfg content).
Proof. unfold Relay.sendMemoToSheet; cbv zeta; remote_steps. Qed.

Lemma send_all_remote cfg memos : remote (Relay.send_all cfg memos).
Proof.
  induction memos as [|m ms IH]; cbn; [apply remote_ret|].
  apply remote_bind; [apply sendMemoToSheet_remote|intros; exact IH].
Qed.

(* ----------------------------------------------------------------- *)
(** *** Sync is a no-op when the path is not viable or the queue is empty *)

(** C4: in both variants, a sync while the persistence path is not
    viable (offline; or, for the drive variant, unauthenticated) or with
    an empty queue returns at once and leaves the whole world as it was:
    no status change, no outbound call, no storage write. *)
Theorem sync_noop_when_not_viable_or_empty (cfg : config) (w : world) :
  ((w_auth w && w_online w = false \/ queue w = []) ->
     Drive.syncPendingData cfg w = (Ok tt, w)) /\
  ((w_online w = false \/ queue w = []) ->
     Relay.syncOfflineMemosToSheet cfg w = (Ok tt, w)).
Proof.
  destruct w as [memo dis on au li pe dr fr ne cl tr]; unfold queue; cbn.
  split; intros [Hv|Hq].
  - unfold Drive.syncPendingData; cbn.
    destruct au, on; try discriminate; reflexivity.
  - unfold Drive.syncPendingData; cbn.
    destruct (negb au || negb on); [reflexivity|]. cbn. rewrite Hq. reflexivity.
  - unfold Relay.syncOfflineMemosToSheet; cbn. rewrite Hv. reflexivity.
  - unfold Relay.syncOfflineMemosToSheet; cbn.
    destruct (negb on); [reflexivity|]. cbn. rewrite Hq. reflexivity.
Qed.

(* ----------------------------------------------------------------- *)
(** *** Saving while the remote path is not viable *)

(** C5: a save of non-empty trimmed text while the remote path is not
    viable appends exactly one pending memo (the trimmed text, stamped
    with [toISOString()]) to the stored queue, clears the editor, and
    makes no outbound call (the transport script is untouched and no
    network event is traced). Drive variant: offline or unauthenticated;
    relay variant: offline. *)
Theorem offline_save_enqueues_and_clears (cfg : config) (w : world) :
  trim (w_memo w) <> [] ->
  (w_online w && w_auth w = false ->
     let w' := snd (Drive.saveBtn_onclick cfg w) in
     w_pending w' = Some (queue w ++ [mkMemo (trim (w_memo w)) (c_iso (w_clock w))]) /\
     w_memo w' = [] /\ w_net w' = w_net w /\ w_drive w' = w_drive w /\
     exists l, w_trace w' = w_trace w ++ l /\ net_free l) /\
  (w_online w = false ->
     let w' := snd (Relay.saveBtn_onclick cfg w) in
     w_pending w' = Some (queue w ++ [mkMemo (trim (w_memo w)) (c_iso (w_clock w))]) /\
     w_memo w' = [] /\ w_net w' = w_net w /\ w_drive w' = w_drive w /\
     exists l, w_trace w' = w_trace w ++ l /\ net_free l).
Proof.
  destruct w as [memo dis on au li pe dr fr ne cl tr]; unfold queue; cbn -[trim].
  intros Ht; destruct (trim memo) as [|c t] eqn:E; [congruence|].
  split; intros Hv.
  - unfold Drive.saveBtn_onclick; cbn -[trim Drive.saveToDrive].
    cbn -[trim Drive.saveToDrive]; rewrite Hv; cbn.
    repeat split; eexists; split; [rewrite <- !app_assoc; reflexivity|].
    intros r ok H; cbn in H; intuition discriminate.
  - unfold Relay.saveBtn_onclick; cbn -[trim Relay.sendMemoToSheet].
    cbn -[trim Relay.sendMemoToSheet]; rewrite Hv; cbn.
    repeat split; eexists; split; [rewrite <- !app_assoc; reflexivity|].
    intros r ok H; cbn in H; intuition discriminate.
Qed.

(* ----------------------------------------------------------------- *)
(** *** A failed remote save keeps the text *)

(** The world after an online save whose remote call rejected with [e],
    leaving the world [w2]: drive variant. *)
Lemma drive_save_failure_world (cfg : config) (w : world) e w2 :
  trim (w_memo w) <> [] -> w_online w && w_auth w = true ->
  Drive.saveToDrive cfg (trim (w_memo w)) (snd (Drive.saving_prelude w)) = (Exc e, w2) ->
  let q' := queue w ++ [mkMemo (trim (w_memo w)) (c_iso (w_clock w))] in
  w_memo w2 = w_memo w /\
  Drive.saveBtn_onclick cfg w =
    (Ok tt, mkWorld (w_memo w) true (w_online w) (w_auth w) (w_listening w)
              (Some q') (w_drive w2) (w_fresh w2) (w_net w2) (w_clock w)
              (w_trace w2 ++
                 [EvStoreSet q'; EvAlert (Drive.alert_prefix ++ Drive.errMsg e);
                  EvStatus (u "Saved Locally (Sync later)") (u "offline")])).
Proof.
  destruct w as [memo dis on au li pe dr fr ne cl tr]; unfold queue; cbn -[trim].
  intros Ht Hv H; destruct (trim memo) as [|c t] eqn:E; [congruence|].
  pose proof (saveToDrive_remote cfg (c :: t)
                (snd (Drive.saving_prelude
                   (mkWorld memo dis on au li pe dr fr ne cl tr)))) as [Hs _].
  cbn -[Drive.saveToDrive] in Hs, H; rewrite H in Hs; cbn in Hs.
  destruct w2 as [memo2 dis2 on2 au2 li2 pe2 dr2 fr2 ne2 cl2 tr2].
  destruct Hs as (Hm&?&?&?&?&Hp&Hc); cbn in *; subst.
  split; [reflexivity|].
  unfold Drive.saveBtn_onclick; cbn -[trim Drive.saveToDrive].
  rewrite Hv; cbn -[Drive.saveToDrive]. cbv [try_catch bind]; cbv beta; rewrite H; cbn.
  unfold update_status, emit, modify; cbn; rewrite <- !app_assoc; reflexivity.
Qed.

(** The same for the relay variant. *)
Lemma relay_save_failure_world (cfg : config) (w : world) e w2 :
  trim (w_memo w) <> [] -> w_online w = true ->
  Relay.sendMemoToSheet cfg (trim (w_memo w)) (snd (Relay.saving_prelude w)) = (Exc e, w2) ->
  let q' := queue w ++ [mkMemo (trim (w_memo w)) (c_iso (w_clock w))] in
  w_memo w2 = w_memo w /\
  Relay.saveBtn_onclick cfg w =
    (Ok tt, mkWorld (w_memo w) true (w_online w) (w_auth w) (w_listening w)
              (Some q') (w_drive w2) (w_fresh w2) (w_net w2) (w_clock w)
              (w_trace w2 ++
                 [EvStoreSet q'; EvAlert (Relay.alert_prefix ++ Relay.errorMessage e);
                  EvStatus (u "端末内に仮保存済（後で同期します）") (u "offline")])).
Proof.
  destruct w as [memo dis on au li pe dr fr ne cl tr]; unfold queue; cbn -[trim].
  intros Ht Hv H; destruct (trim memo) as [|c t] eqn:E; [congruence|].
  pose proof (sendMemoToSheet_remote cfg (c :: t)
                (snd (Relay.saving_prelude
                   (mkWorld memo dis on au li pe dr fr ne cl tr)))) as [Hs _].
  cbn -[Relay.sendMemoToSheet] in Hs, H; rewrite H in Hs; cbn in Hs.
  destruct w2 as [memo2 dis2 on2 au2 li2 pe2 dr2 fr2 ne2 cl2 tr2].
  destruct Hs as (Hm&?&?&?&?&Hp&Hc); cbn in *; subst.
  split; [reflexivity|].
  unfold Relay.saveBtn_onclick; cbn -[trim Relay.sendMemoToSheet].
  cbn -[Relay.sendMemoToSheet]. cbv [try_catch bind]; cbv beta; rewrite H; cbn.
  unfold update_status, emit, modify; cbn; rewrite <- !app_assoc; reflexivity.
Qed.

(** C1: when the remote call of an online save rejects, the handler
    first writes the text to the queue (the storage event precedes the
    notice), never clears the editor (neither during the remote call nor
    after), and shows a blocking notice carrying the failure's message:
    [err.result?.error?.message || err.message || JSON.stringify(err)]
    in the drive variant, [error.message || JSON.stringify(error)] in
    the relay variant. *)
Theorem failed_save_queues_text_first (cfg : config) (w : world) :
  trim (w_memo w) <> [] ->
  (w_online w && w_auth w = true ->
   forall e w2,
   Drive.saveToDrive cfg (trim (w_memo w)) (snd (Drive.saving_prelude w)) = (Exc e, w2) ->
   let q' := queue w ++ [mkMemo (trim (w_memo w)) (c_iso (w_clock w))] in
   let w' := snd (Drive.saveBtn_onclick cfg w) in
   w_memo w2 = w_memo w /\ w_memo w' = w_memo w /\ w_pending w' = Some q' /\
   w_trace w' = w_trace w2 ++
     [EvStoreSet q'; EvAlert (Drive.alert_prefix ++ Drive.errMsg e);
      EvStatus (u "Saved Locally (Sync later)") (u "offline")] /\
   (err_result_message e <> [] -> Drive.errMsg e = err_result_message e) /\
   (err_result_message e = [] -> err_message e <> [] -> Drive.errMsg e = err_message e)) /\
  (w_online w = true ->
   forall e w2,
   Relay.sendMemoToSheet cfg (trim (w_memo w)) (snd (Relay.saving_prelude w)) = (Exc e, w2) ->
   let q' := queue w ++ [mkMemo (trim (w_memo w)) (c_iso (w_clock w))] in
   let w' := snd (Relay.saveBtn_onclick cfg w) in
   w_memo w2 = w_memo w /\ w_memo w' = w_memo w /\ w_pending w' = Some q' /\
   w_trace w' = w_trace w2 ++
     [EvStoreSet q'; EvAlert (Relay.alert_prefix ++ Relay.errorMessage e);
      EvStatus (u "端末内に仮保存済（後で同期します）") (u "offline")] /\
   (err_message e <> [] -> Relay.errorMessage e = err_message e)).
Proof.
  intros Ht; split; intros Hv e w2 H.
  - destruct (drive_save_failure_world cfg w e w2 Ht Hv H) as [Hm2 Heq].
    cbn zeta; rewrite Heq; cbn.
    unfold Drive.errMsg, js_or.
    repeat split; try assumption.
    + intros Hr; destruct (err_result_message e); congruence.
    + intros Hr Hm; rewrite Hr; destruct (err_message e); congruence.
  - destruct (relay_save_failure_world cfg w e w2 Ht Hv H) as [Hm2 Heq].
    cbn zeta; rewrite Heq; cbn.
    unfold Relay.errorMessage, js_or.
    repeat split; try assumption.
    intros Hm; destruct (err_message e); congruence.
Qed.

(* ----------------------------------------------------------------- *)
(** *** Sync clears the queue only on full success *)

Lemma faulted_app l1 l2 : faulted (l1 ++ l2) <-> faulted l1 \/ faulted l2.
Proof.
  unfold faulted; split.
  - intros [r Hin]; apply in_app_or in Hin as [Hin|Hin]; eauto.
  - intros [[r Hin]|[r Hin]]; exists r; apply in_or_app; auto.
Qed.

Lemma not_faulted_local ev l :
  (forall r, ev <> EvNet r false) -> faulted (ev :: l) <-> faulted l.
Proof.
  intros Hev; unfold faulted; split.
  - intros [r [H|H]]; [exfalso; eapply Hev; eauto|eauto].
  - intros [r H]; exists r; right; exact H.
Qed.

(** The protected block shared by both sync operations: the remote
    work, then [removeItem] and the success status, in a [try] whose
    handler only sets a status. *)
Lemma clear_only_on_success (m : M unit) s k t1 t2 sf kf w1 :
  remote m ->
  let w' := snd (try_catch
                   (m ;;; set_pending None ;;; emit EvStoreRemove ;;;
                    update_status s k ;;; emit (EvTimer 2000 t1 t2))
                   (fun _ => update_status sf kf) w1) in
  exists l, w_trace w' = w_trace w1 ++ l /\
    (faulted l -> w_pending w' = w_pending w1) /\
    (~ faulted l -> w_pending w' = None).
Proof.
  intros Hm; cbn zeta.
  destruct (Hm w1) as [Hs [l [Ht [_ Hr]]]].
  unfold try_catch, bind.
  destruct (m w1) as [[[]|e] w2]; cbn in Hs, Ht, Hr |- *;
    destruct w2 as [memo2 dis2 on2 au2 li2 pe2 dr2 fr2 ne2 cl2 tr2];
    destruct Hs as (_&_&_&_&_&Hp&_); cbn in *.
  - exists (l ++ [EvStoreRemove; EvStatus s k; EvTimer 2000 t1 t2]).
    split; [rewrite Ht, <- !app_assoc; reflexivity|].
    split; [|reflexivity].
    intros Hf; apply faulted_app in Hf as [Hf|[r [H|[H|[H|H]]]]];
      [contradiction|discriminate|discriminate|discriminate|inversion H].
  - exists (l ++ [EvStatus sf kf]).
    split; [rewrite Ht, <- !app_assoc; reflexivity|].
    split; [intros _; exact Hp|].
    intros Hn; exfalso; apply Hn, faulted_app; left; exact Hr.
Qed.

Ltac protected_block tac :=
  lazymatch goal with
  | |- context [try_catch
                 (?m ;;; set_pending None ;;; emit EvStoreRemove ;;;
                  update_status ?s ?k ;;; emit (EvTimer 2000 ?t1 ?t2))
                 (fun _ => update_status ?sf ?kf) ?w1] =>
      destruct (clear_only_on_success m s k t1 t2 sf kf w1) as [l [Ht [Hf Hn]]];
      [tac|]
  end.

(** C2: a sync that runs (path viable, queue non-empty) either completes
    every remote submission, and then the [pending_memos] key is absent
    ([None], not an empty list), or some submission faults, and then
    the stored queue is exactly what it was before the run. *)
Theorem sync_all_or_nothing (cfg : config) (w : world) :
  queue w <> [] ->
  (w_auth w && w_online w = true ->
     let w' := snd (Drive.syncPendingData cfg w) in
     exists l, w_trace w' = w_trace w ++ l /\
       (faulted l -> w_pending w' = w_pending w) /\
       (~ faulted l -> w_pending w' = None)) /\
  (w_online w = true ->
     let w' := snd (Relay.syncOfflineMemosToSheet cfg w) in
     exists l, w_trace w' = w_trace w ++ l /\
       (faulted l -> w_pending w' = w_pending w) /\
       (~ faulted l -> w_pending w' = None)).
Proof.
  destruct w as [memo dis on au li pe dr fr ne cl tr]; unfold queue; cbn.
  intros Hq; destruct pe as [[|p ps]|]; try congruence.
  split; intros Hv.
  - unfold Drive.syncPendingData; cbn -[Drive.saveToDrive].
    destruct au, on; try discriminate; cbn -[Drive.saveToDrive].
    protected_block ltac:(apply saveToDrive_remote).
    cbn in Ht, Hf, Hn.
    exists (EvStatus (u "Syncing...") (u "syncing") :: l).
    rewrite Ht, <- app_assoc; split; [reflexivity|].
    split; intros H.
    + apply Hf; apply not_faulted_local in H; [exact H|intros ? ?; discriminate].
    + apply Hn; intros H'; apply H;
        apply not_faulted_local; [intros ? ?; discriminate|exact H'].
  - unfold Relay.syncOfflineMemosToSheet; cbn -[Relay.send_all].
    rewrite Hv; cbn -[Relay.send_all].
    protected_block ltac:(apply send_all_remote).
    cbn in Ht, Hf, Hn.
    exists (EvStatus (u "同期中...") (u "syncing") :: l).
    rewrite Ht, <- app_assoc; split; [reflexivity|].
    split; intros H.
    + apply Hf; apply not_faulted_local in H; [exact H|intros ? ?; discriminate].
    + apply Hn; intros H'; apply H;
        apply not_faulted_local; [intros ? ?; discriminate|exact H'].
Qed.

(* ----------------------------------------------------------------- *)
(** *** Dictation results *)

Lemma final_transcript_fold (rs : list sr_result) (acc : jstr) :
  fold_left (fun acc r => if sr_is_final r then acc ++ sr_transcript r else acc) rs acc =
  acc ++ List.concat (map sr_transcript (filter sr_is_final rs)).
Proof.
  revert acc; induction rs as [|r rs IH]; intros acc; cbn.
  - now rewrite app_nil_r.
  - rewrite IH; destruct (sr_is_final r); cbn; [now rewrite app_assoc|reflexivity].
Qed.

(** C7: the text a result batch contributes is the concatenation of the
    finalized results from [resultIndex] on; when it is non-empty it is
    appended once to the editor, after a newline exactly when the editor
    already held text, and the save control is enabled. Nothing else of
    the page changes. *)
Theorem on_result_appends_final_text (ev : sr_event) (w : world) :
  let ft := List.concat (map sr_transcript
                      (filter sr_is_final (skipn (ev_result_index ev) (ev_results ev)))) in
  final_transcript ev = ft /\
  (ft <> [] ->
   let w' := snd (on_result ev w) in
   (w_memo w = [] -> w_memo w' = ft) /\
   (w_memo w <> [] -> w_memo w' = w_memo w ++ nl ++ ft) /\
   w_save_disabled w' = false /\
   w_pending w' = w_pending w /\ w_trace w' = w_trace w /\ w_net w' = w_net w).
Proof.
  cbn zeta.
  assert (Hft : final_transcript ev =
                List.concat (map sr_transcript
                   (filter sr_is_final (skipn (ev_result_index ev) (ev_results ev)))))
    by (unfold final_transcript; apply final_transcript_fold).
  split; [exact Hft|]; intros Hne.
  unfold on_result; rewrite Hft.
  destruct (List.concat _) as [|c t]; [congruence|].
  destruct w as [memo dis on au li pe dr fr ne cl tr]; cbn.
  destruct memo as [|m ms]; cbn; repeat split; congruence.
Qed.

(** C10: a batch with no finalized result from [resultIndex] on leaves
    the whole world unchanged: editor text and save control included. *)
Theorem on_result_interim_only_noop (ev : sr_event) (w : world) :
  forallb (fun r => negb (sr_is_final r)) (skipn (ev_result_index ev) (ev_results ev)) = true ->
  on_result ev w = (Ok tt, w).
Proof.
  intros Hall.
  assert (Hf : filter sr_is_final (skipn (ev_result_index ev) (ev_results ev)) = []).
  { induction (skipn (ev_result_index ev) (ev_results ev)) as [|r rs IH]; [reflexivity|].
    cbn in Hall |- *; apply andb_prop in Hall as [Hr Hrs].
    destruct (sr_is_final r); [discriminate|auto]. }
  unfold on_result, final_transcript; rewrite final_transcript_fold, Hf; reflexivity.
Qed.

(* ----------------------------------------------------------------- *)
(** *** The combined body of the drive sync *)

Lemma combined_fold (q : list pending_memo) (acc : jstr) :
  fold_left (fun acc item => acc ++ Drive.synced_entry item) q acc =
  acc ++ flat_map Drive.synced_entry q.
Proof.
  revert acc; induction q as [|m q IH]; intros acc; cbn.
  - now rewrite app_nil_r.
  - rewrite IH, <- !app_assoc; reflexivity.
Qed.

(** C9: the combined body of the drive sync is the queued notes, in
    queue order, each exactly once, each as a newline, the marker
    ["(Synced from offline)"], a newline, the note text and a newline. *)
Theorem combined_text_in_queue_order (q : list pending_memo) :
  Drive.combined_text q =
  flat_map (fun item => nl ++ u "(Synced from offline)" ++ nl ++ pm_text item ++ nl) q.
Proof. unfold Drive.combined_text; rewrite combined_fold; reflexivity. Qed.

(* ----------------------------------------------------------------- *)
(** *** The save control after a failed save *)

(** A computation that leaves [saveBtn.disabled] as it found it. *)
Definition keeps_disabled {A} (m : M A) : Prop :=
  forall w, w_save_disabled (snd (m w)) = w_save_disabled w.

Lemma kd_remote {A} (m : M A) : remote m -> keeps_disabled m.
Proof. intros Hm w; destruct (Hm w) as [(_&H&_) _]; exact H. Qed.

Lemma kd_ret {A} (a : A) : keeps_disabled (ret a).
Proof. intros w; reflexivity. Qed.

Lemma kd_get : keeps_disabled get.
Proof. intros w; reflexivity. Qed.

Lemma kd_bind {A B} (m : M A) (k : A -> M B) :
  keeps_disabled m -> (forall a, keeps_disabled (k a)) -> keeps_disabled (bind m k).
Proof.
  intros Hm Hk w; unfold bind; specialize (Hm w).
  destruct (m w) as [[a|e] w1]; cbn in *; [rewrite Hk|]; exact Hm.
Qed.

Lemma kd_try_catch {A} (m : M A) h :
  keeps_disabled m -> (forall e, keeps_disabled (h e)) -> keeps_disabled (try_catch m h).
Proof.
  intros Hm Hh w; unfold try_catch; specialize (Hm w).
  destruct (m w) as [[a|e] w1]; cbn in *; [|rewrite Hh]; exact Hm.
Qed.

Lemma kd_emit ev : keeps_disabled (emit ev).
Proof. intros []; reflexivity. Qed.

Lemma kd_update_status s k : keeps_disabled (update_status s k).
Proof. apply kd_emit. Qed.

Lemma kd_set_pending q : keeps_disabled (set_pending q).
Proof. intros []; reflexivity. Qed.

Lemma kd_set_online b : keeps_disabled (set_online b).
Proof. intros []; reflexivity. Qed.

Lemma kd_set_auth b : keeps_disabled (set_auth b).
Proof. intros []; reflexivity. Qed.

Lemma kd_set_listening b : keeps_disabled (set_listening b).
Proof. intros []; reflexivity. Qed.

Lemma kd_read_pending : keeps_disabled read_pending.
Proof. intros w; reflexivity. Qed.

Lemma kd_saveToDrive cfg c : keeps_disabled (Drive.saveToDrive cfg c).
Proof. apply kd_remote, saveToDrive_remote. Qed.

Lemma kd_send_all cfg q : keeps_disabled (Relay.send_all cfg q).
Proof. apply kd_remote, send_all_remote. Qed.

Ltac kd_step :=
  lazymatch goal with
  | |- keeps_disabled (Drive.saveToDrive _ _) => apply kd_saveToDrive
  | |- keeps_disabled (Relay.send_all _ _) => apply kd_send_all
  | |- keeps_disabled (try_catch _ _) => apply kd_try_catch; [|intros ?; cbv beta]
  | |- keeps_disabled (bind _ _) => apply kd_bind; [|intros ?; cbv beta]
  | |- keeps_disabled (ret _) => apply kd_ret
  | |- keeps_disabled get => apply kd_get
  | |- keeps_disabled read_pending => apply kd_read_pending
  | |- keeps_disabled (emit _) => apply kd_emit
  | |- keeps_disabled (update_status _ _) => apply kd_update_status
  | |- keeps_disabled (set_pending _) => apply kd_set_pending
  | |- keeps_disabled (set_online _) => apply kd_set_online
  | |- keeps_disabled (set_auth _) => apply kd_set_auth
  | |- keeps_disabled (set_listening _) => apply kd_set_listening
  | |- keeps_disabled (match ?x with _ => _ end) => destruct x
  end.

Ltac kd_steps := repeat kd_step.

Lemma drive_sync_keeps_disabled cfg : keeps_disabled (Drive.syncPendingData cfg).
Proof. unfold Drive.syncPendingData; cbv zeta; kd_steps. Qed.

Lemma relay_sync_keeps_disabled cfg : keeps_disabled (Relay.syncOfflineMemosToSheet cfg).
Proof. unfold Relay.syncOfflineMemosToSheet; kd_steps. Qed.

(** C8: after an online save whose remote call rejects, the save control
    stays disabled although the editor still holds the non-empty text;
    every handler of the page other than an editor [input] or a
    dictation result leaves a disabled control disabled (a click on a
    disabled control does nothing), and those two re-enable it when they
    bring non-empty text. *)
Theorem failed_save_leaves_save_disabled (cfg : config) (w : world) :
  trim (w_memo w) <> [] ->
  (w_online w && w_auth w = true ->
   forall e w2,
   Drive.saveToDrive cfg (trim (w_memo w)) (snd (Drive.saving_prelude w)) = (Exc e, w2) ->
   w_save_disabled (snd (Drive.saveBtn_onclick cfg w)) = true /\
   trim (w_memo (snd (Drive.saveBtn_onclick cfg w))) <> []) /\
  (w_online w = true ->
   forall e w2,
   Relay.sendMemoToSheet cfg (trim (w_memo w)) (snd (Relay.saving_prelude w)) = (Exc e, w2) ->
   w_save_disabled (snd (Relay.saveBtn_onclick cfg w)) = true /\
   trim (w_memo (snd (Relay.saveBtn_onclick cfg w))) <> []) /\
  (forall ev (wd : world), w_save_disabled wd = true ->
   (forall v, ev <> UInput v) -> (forall r, ev <> UResult r) ->
   w_save_disabled (snd (DrivePage.dispatch cfg ev wd)) = true /\
   w_save_disabled (snd (RelayPage.dispatch cfg ev wd)) = true) /\
  (forall v (wd : world), trim v <> [] ->
   w_save_disabled (snd (DrivePage.dispatch cfg (UInput v) wd)) = false /\
   w_save_disabled (snd (RelayPage.dispatch cfg (UInput v) wd)) = false) /\
  (forall r (wd : world), final_transcript r <> [] ->
   w_save_disabled (snd (DrivePage.dispatch cfg (UResult r) wd)) = false /\
   w_save_disabled (snd (RelayPage.dispatch cfg (UResult r) wd)) = false).
Proof.
  intros Ht; split; [|split; [|split; [|split]]].
  - intros Hv e w2 H.
    destruct (drive_save_failure_world cfg w e w2 Ht Hv H) as [_ Heq].
    rewrite Heq; cbn; split; [reflexivity|exact Ht].
  - intros Hv e w2 H.
    destruct (relay_save_failure_world cfg w e w2 Ht Hv H) as [_ Heq].
    rewrite Heq; cbn; split; [reflexivity|exact Ht].
  - intros ev wd Hd Hi Hr.
    destruct ev as [v|r| | | | | | |s k];
      try (exfalso; eapply Hi; reflexivity); try (exfalso; eapply Hr; reflexivity);
      cbn -[Drive.syncPendingData Relay.syncOfflineMemosToSheet].
    + rewrite Hd; split; exact Hd.
    + destruct wd; cbn in *; split; exact Hd.
    + destruct wd as [memo dis [] au li pe dr fr ne cl tr]; cbn in *; split; exact Hd.
    + split; rewrite relay_sync_keeps_disabled || rewrite drive_sync_keeps_disabled;
        destruct wd; exact Hd.
    + destruct wd; cbn in *; split; exact Hd.
    + split; [rewrite drive_sync_keeps_disabled; destruct wd; exact Hd|exact Hd].
    + destruct wd; cbn in *; split; exact Hd.
  - intros v wd Hv; destruct wd; unfold on_input; cbn -[trim].
    destruct (trim v); [congruence|]; split; reflexivity.
  - intros r wd Hr; cbn; unfold on_result.
    destruct (final_transcript r); [congruence|]; destruct wd; split; reflexivity.
Qed.

(* ----------------------------------------------------------------- *)
(** *** The per-day document name *)

(** The decimal digits of a two- and of a four-digit number. *)
Definition two_digits (n : Z) : jstr := [48 + n / 10; 48 + n mod 10].
Definition four_digits (n : Z) : jstr :=
  [48 + n / 1000; 48 + (n / 100) mod 10; 48 + (n / 10) mod 10; 48 + n mod 10].

Lemma digits_step f n acc :
  digits (S f) n acc =
  if n <? 10 then (48 + n) :: acc else digits f (n / 10) ((48 + n mod 10) :: acc).
Proof. reflexivity. Qed.

Lemma to_nat_ge (n : Z) (k : nat) : Z.of_nat k <= n -> exists j, Z.to_nat n = (k + j)%nat.
Proof. intros H; exists (Z.to_nat n - k)%nat; lia. Qed.

Lemma pad2_two_digits n : 0 <= n < 100 -> pad_start 2 48 (z_to_string n) = two_digits n.
Proof.
  intros Hn; unfold z_to_string, two_digits.
  replace (n <? 0) with false by (symmetry; apply Z.ltb_ge; lia).
  destruct (Z.ltb_spec n 10) as [Hl|Hl].
  - rewrite digits_step; replace (n <? 10) with true by (symmetry; apply Z.ltb_lt; lia).
    rewrite Z.div_small, Z.mod_small by lia; reflexivity.
  - destruct (to_nat_ge n 2 ltac:(lia)) as [j Hj]; rewrite Hj; cbn [Nat.add].
    rewrite digits_step; replace (n <? 10) with false by (symmetry; apply Z.ltb_ge; lia).
    rewrite digits_step; replace (n / 10 <? 10) with true
      by (symmetry; apply Z.ltb_lt; apply Z.div_lt_upper_bound; lia).
    reflexivity.
Qed.

Lemma z_to_string_four_digits n : 1000 <= n <= 9999 -> z_to_string n = four_digits n.
Proof.
  intros Hn; unfold z_to_string, four_digits.
  replace (n <? 0) with false by (symmetry; apply Z.ltb_ge; lia).
  destruct (to_nat_ge n 4 ltac:(lia)) as [j Hj]; rewrite Hj; cbn [Nat.add].
  rewrite !digits_step.
  replace (n <? 10) with false by (symmetry; apply Z.ltb_ge; lia).
  replace (n / 10 <? 10) with false
    by (symmetry; apply Z.ltb_ge; apply Z.div_le_lower_bound; lia).
  replace (n / 10 / 10 <? 10) with false
    by (symmetry; apply Z.ltb_ge; rewrite Z.div_div by lia; apply Z.div_le_lower_bound; lia).
  replace (n / 10 / 10 / 10 <? 10) with true
    by (symmetry; apply Z.ltb_lt; rewrite !Z.div_div by lia; apply Z.div_lt_upper_bound; lia).
  rewrite !Z.div_div by lia; reflexivity.
Qed.

Arguments Drive.getFileName c : simpl never.
Arguments Drive.query_files name folder d : simpl never.
Arguments Drive.body_of id d : simpl never.
Arguments Drive.patch_file id name body d : simpl never.
Arguments trim s : simpl never.
Arguments locale_time c : simpl never.


Lemma transport_inv r w x w' :
  transport r w = (x, w') ->
  w_drive w' = w_drive w /\ w_fresh w' = w_fresh w /\ w_clock w' = w_clock w /\
  exists ok, w_trace w' = w_trace w ++ [EvNet r ok] /\ (x = Ok tt -> ok = true).
Proof.
  destruct w as [memo dis on au li pe dr fr ne cl tr]; unfold transport; cbn.
  destruct ne as [|[|e] os]; cbn; intros H; inversion H; subst; cbn;
    (repeat split); eexists; (split; [reflexivity|]); intros; try discriminate; reflexivity.
Qed.

Ltac close_existing_fail :=
  cbn [fst snd];
  eexists; split;
  [ repeat match goal with H : w_trace _ = _ |- _ => rewrite H; clear H end;
    rewrite <- ?app_assoc; reflexivity | ];
  split; [intros ? ? Hin; repeat (destruct Hin as [Hin|Hin]; [discriminate|]); destruct Hin|];
  split; [ repeat match goal with H : w_drive _ = _ |- _ => rewrite H; clear H end; reflexivity|];
  intros Hc; discriminate Hc.

Lemma saveToDrive_existing cfg content w f rest :
  Drive.query_files (Drive.getFileName (w_clock w)) (cfg_folder_id cfg) (w_drive w) = f :: rest ->
  let rw := Drive.saveToDrive cfg content w in
  exists l, w_trace (snd rw) = w_trace w ++ l /\
    (forall b ok, ~ In (EvNet (ReqPost b) ok) l) /\
    List.length (w_drive (snd rw)) = List.length (w_drive w) /\
    (fst rw = Ok tt -> exists b, In (EvNet (ReqPatch (f_id f) b) true) l).
Proof.
  intros Hq rw; subst rw.
  unfold Drive.saveToDrive; cbv [bind get ret try_catch throw].
  destruct (transport _ w) as [x1 w1] eqn:T1.
  destruct (transport_inv _ _ _ _ T1) as [D1 [F1 [C1 [ok1 [Tr1 O1]]]]].
  destruct x1 as [[]|e1].
  - rewrite D1, Hq; cbv beta iota.
    destruct (transport (ReqGet (f_id f)) w1) as [x2 w2] eqn:T2.
    destruct (transport_inv _ _ _ _ T2) as [D2 [F2 [C2 [ok2 [Tr2 O2]]]]].
    destruct x2 as [[]|e2]; cbv beta iota.
    + destruct (transport (ReqPatch _ _) w2) as [x3 w3] eqn:T3.
      destruct (transport_inv _ _ _ _ T3) as [D3 [F3 [C3 [ok3 [Tr3 O3]]]]].
      destruct x3 as [[]|e3]; unfold set_drive, modify; cbn [snd fst w_trace w_drive].
      * exists [EvNet (ReqList (Drive.getFileName (w_clock w)) (cfg_folder_id cfg)) ok1;
                EvNet (ReqGet (f_id f)) ok2;
                EvNet (ReqPatch (f_id f) (Drive.multipart (Drive.update_meta (Drive.getFileName (w_clock w)))
                  (trim (Drive.body_of (f_id f) (w_drive w2) ++
                         Drive.new_entry (locale_time (w_clock w2)) content)))) ok3].
        split; [rewrite Tr3, Tr2, Tr1, <- !app_assoc; reflexivity|].
        split; [intros b ok [H|[H|[H|[]]]]; discriminate|].
        split; [unfold Drive.patch_file; rewrite length_map, D3, D2, D1; reflexivity|].
        intros _; eexists; right; right; left; rewrite O3 by reflexivity; reflexivity.
      * close_existing_fail.
    + close_existing_fail.
  - close_existing_fail.
Qed.

(** The drive after a successful [saveToDrive]: the day's first matching
    file is patched, or a new file is appended. *)
Lemma saveToDrive_ok_drive cfg content w w' :
  Drive.saveToDrive cfg content w = (Ok tt, w') ->
  let name := Drive.getFileName (w_clock w) in
  let folder := cfg_folder_id cfg in
  let time := locale_time (w_clock w) in
  match Drive.query_files name folder (w_drive w) with
  | f :: _ =>
      w_drive w' = Drive.patch_file (f_id f) name
                     (trim (Drive.body_of (f_id f) (w_drive w) ++ Drive.new_entry time content))
                     (w_drive w)
  | [] =>
      w_drive w' = w_drive w ++
                   [mkFile (u "f" ++ z_to_string (w_fresh w)) name [folder] false Drive.mime_md
                      (trim ([] ++ Drive.new_entry time content))]
  end.
Proof.
  intros H; revert H; cbv zeta.
  unfold Drive.saveToDrive; cbv [bind get ret try_catch throw].
  destruct (transport _ w) as [x1 w1] eqn:T1.
  destruct (transport_inv _ _ _ _ T1) as [D1 [F1 [C1 _]]].
  destruct x1 as [[]|e1]; [|discriminate].
  rewrite D1.
  destruct (Drive.query_files _ _ (w_drive w)) as [|f rest] eqn:Hq; cbv beta iota.
  - destruct (transport (ReqPost _) w1) as [x3 w3] eqn:T3.
    destruct (transport_inv _ _ _ _ T3) as [D3 [F3 [C3 _]]].
    destruct x3 as [[]|e3]; [|discriminate].
    unfold set_drive, modify; intros H; injection H as <-; cbn [w_drive w_fresh].
    rewrite D3, F3, C1, D1, F1; reflexivity.
  - destruct (transport (ReqGet (f_id f)) w1) as [x2 w2] eqn:T2.
    destruct (transport_inv _ _ _ _ T2) as [D2 [F2 [C2 _]]].
    destruct x2 as [[]|e2]; cbv beta iota; [|discriminate].
    destruct (transport (ReqPatch _ _) w2) as [x3 w3] eqn:T3.
    destruct (transport_inv _ _ _ _ T3) as [D3 [F3 [C3 _]]].
    destruct x3 as [[]|e3]; [|discriminate].
    unfold set_drive, modify; intros H; injection H as <-; cbn [w_drive w_fresh].
    rewrite D3, D2, D1, C2, C1; reflexivity.
Qed.

Lemma jstr_eqb_true a b : jstr_eqb a b = true <-> a = b.
Proof.
  unfold jstr_eqb; destruct (list_eq_dec Z.eq_dec a b); split; congruence.
Qed.

Lemma query_files_spec name folder d f :
  In f (Drive.query_files name folder d) ->
  In f d /\ f_name f = name /\ In folder (f_parents f) /\ f_trashed f = false.
Proof.
  unfold Drive.query_files; intros H; apply filter_In in H as [Hin Hp].
  apply andb_prop in Hp as [Hp Ht]; apply andb_prop in Hp as [Hn Hf].
  apply jstr_eqb_true in Hn; apply existsb_exists in Hf as [x [Hx Hx']].
  apply jstr_eqb_true in Hx'; subst x.
  destruct (f_trashed f); [discriminate|auto].
Qed.

(** C6: the day's document is named [YYYY-MM-DD.md] with a four-digit
    year and two-digit, zero-padded month and day; the name depends on
    the calendar date only; and a save that finds an existing,
    non-trashed document of that name in the folder sends no create
    (POST) request, keeps the number of documents, and on success has
    sent an update (PATCH) of that document. *)
Theorem day_document_name_and_update (c : clock) :
  1000 <= c_year c <= 9999 -> 0 <= c_month c <= 11 -> 1 <= c_day c <= 31 ->
  Drive.getFileName c =
    four_digits (c_year c) ++ u "-" ++ two_digits (c_month c + 1) ++ u "-" ++
    two_digits (c_day c) ++ u ".md" /\
  (forall c', c_year c' = c_year c -> c_month c' = c_month c -> c_day c' = c_day c ->
     Drive.getFileName c' = Drive.getFileName c) /\
  (forall cfg content w f rest,
     w_clock w = c ->
     Drive.query_files (Drive.getFileName c) (cfg_folder_id cfg) (w_drive w) = f :: rest ->
     let rw := Drive.saveToDrive cfg content w in
     exists l, w_trace (snd rw) = w_trace w ++ l /\
       (forall b ok, ~ In (EvNet (ReqPost b) ok) l) /\
       List.length (w_drive (snd rw)) = List.length (w_drive w) /\
       (fst rw = Ok tt -> exists b, In (EvNet (ReqPatch (f_id f) b) true) l)).
Proof.
  intros Hy Hm Hd; split; [|split].
  - unfold Drive.getFileName; cbv zeta.
    rewrite z_to_string_four_digits, !pad2_two_digits by lia; reflexivity.
  - intros c' Ey Em Ed; unfold Drive.getFileName; rewrite Ey, Em, Ed; reflexivity.
  - intros cfg content w f rest Hc Hq; subst c; exact (saveToDrive_existing _ _ _ _ rest Hq).
Qed.

(** C3 (as the code has it): the new entry is a newline, the heading
    [## HH:MM], a newline, the note text and a newline; after a successful
    save the folder holds a non-trashed document of the day's name whose
    body is the existing body (empty if there was none) followed by the
    entry, trimmed. *)
Theorem save_appends_entry_trimmed cfg content w w' :
  Drive.saveToDrive cfg content w = (Ok tt, w') ->
  let name := Drive.getFileName (w_clock w) in
  let folder := cfg_folder_id cfg in
  let time := locale_time (w_clock w) in
  let existing := match Drive.query_files name folder (w_drive w) with
                  | f :: _ => Drive.body_of (f_id f) (w_drive w)
                  | [] => []
                  end in
  Drive.new_entry time content = nl ++ u "## " ++ time ++ nl ++ content ++ nl /\
  time = pad_start 2 48 (z_to_string (c_hour (w_clock w))) ++ u ":" ++
         pad_start 2 48 (z_to_string (c_minute (w_clock w))) /\
  exists g, In g (w_drive w') /\ f_name g = name /\ In folder (f_parents g) /\
    f_trashed g = false /\ f_body g = trim (existing ++ Drive.new_entry time content).
Proof.
  intros H; pose proof (saveToDrive_ok_drive _ _ _ _ H) as Hd; cbv zeta in *.
  split; [reflexivity|split; [reflexivity|]].
  destruct (Drive.query_files _ _ (w_drive w)) as [|f rest] eqn:Hq.
  - eexists; rewrite Hd; split; [apply in_or_app; right; left; reflexivity|].
    cbn; repeat split; auto.
  - assert (Hf : In f (Drive.query_files (Drive.getFileName (w_clock w)) (cfg_folder_id cfg) (w_drive w)))
      by (rewrite Hq; left; reflexivity).
    apply query_files_spec in Hf as [Hin [Hn [Hp Ht]]].
    eexists; rewrite Hd; split.
    + unfold Drive.patch_file; apply in_map_iff; exists f; split; [|exact Hin].
      assert (E : jstr_eqb (f_id f) (f_id f) = true) by (apply jstr_eqb_true; reflexivity).
      rewrite E; reflexivity.
    + cbn; repeat split; auto.
Qed.

(** C3 counterexample: saving [hi] at 09:05 onto a day's document whose
    body is [A] gives the body [A], [## 09:05], [hi] on three lines; there
    is no blank line anywhere, in particular none between the heading and
    the note text. *)
Lemma entry_has_no_blank_lines :
  let rw := Drive.saveToDrive cfg0 (u "hi")
              (world0 [] true true None [day_file0 (u "A")] []) in
  fst rw = Ok tt /\
  map f_body (w_drive (snd rw)) = [u "A" ++ nl ++ u "## 09:05" ++ nl ++ u "hi"] /\
  lines (u "A" ++ nl ++ u "## 09:05" ++ nl ++ u "hi") = [u "A"; u "## 09:05"; u "hi"] /\
  ~ In [] (lines (u "A" ++ nl ++ u "## 09:05" ++ nl ++ u "hi")).
Proof.
  split; [vm_compute; reflexivity|].
  split; [vm_compute; reflexivity|].
  split; [vm_compute; reflexivity|].
  vm_compute; intros [H|[H|[H|[]]]]; discriminate.
Qed.

(* ----------------------------------------------------------------- *)
(** *** Instances on the sample worlds *)

Lemma failed_save_queues_text_first_witness :
  trim (w_memo wfail0) <> [] /\
  Drive.saveToDrive cfg0 (trim (w_memo wfail0)) (snd (Drive.saving_prelude wfail0)) =
    (Exc err0, snd (Drive.saveToDrive cfg0 (trim (w_memo wfail0)) (snd (Drive.saving_prelude wfail0)))) /\
  w_memo (snd (Drive.saveBtn_onclick cfg0 wfail0)) = u "買い物リスト" /\
  w_pending (snd (Drive.saveBtn_onclick cfg0 wfail0)) =
    Some [mkMemo (u "買い物リスト") (c_iso clock0)].
Proof.
  assert (H0 : trim (w_memo wfail0) <> []) by (vm_compute; discriminate).
  assert (Hd : Drive.saveToDrive cfg0 (trim (w_memo wfail0)) (snd (Drive.saving_prelude wfail0)) =
    (Exc err0, snd (Drive.saveToDrive cfg0 (trim (w_memo wfail0)) (snd (Drive.saving_prelude wfail0)))))
    by (vm_compute; reflexivity).
  destruct (failed_save_queues_text_first cfg0 wfail0 H0) as [Td _].
  destruct (Td eq_refl err0 _ Hd) as [_ [Hm [Hp _]]].
  exact (conj H0 (conj Hd (conj Hm Hp))).
Defined.

Lemma sync_all_or_nothing_witness :
  queue wsync0 <> [] /\
  exists l, w_trace (snd (Drive.syncPendingData cfg0 wsync0)) = w_trace wsync0 ++ l /\
    (faulted l -> w_pending (snd (Drive.syncPendingData cfg0 wsync0)) = w_pending wsync0) /\
    (~ faulted l -> w_pending (snd (Drive.syncPendingData cfg0 wsync0)) = None).
Proof.
  assert (H0 : queue wsync0 <> []) by (vm_compute; discriminate).
  exact (conj H0 (proj1 (sync_all_or_nothing cfg0 wsync0 H0) eq_refl)).
Defined.

Lemma sync_noop_when_not_viable_or_empty_witness :
  queue (world0 [] true true None [] []) = [] /\
  Drive.syncPendingData cfg0 (world0 [] true true None [] []) =
    (Ok tt, world0 [] true true None [] []) /\
  Relay.syncOfflineMemosToSheet cfg0 (world0 [] true true None [] []) =
    (Ok tt, world0 [] true true None [] []).
Proof.
  destruct (sync_noop_when_not_viable_or_empty cfg0 (world0 [] true true None [] [])) as [Hd Hr].
  exact (conj eq_refl (conj (Hd (or_intror eq_refl)) (Hr (or_intror eq_refl)))).
Defined.

Lemma offline_save_enqueues_and_clears_witness :
  trim (w_memo woff0) <> [] /\
  w_pending (snd (Drive.saveBtn_onclick cfg0 woff0)) =
    Some [mkMemo (u "買い物リスト") (c_iso clock0)] /\
  w_memo (snd (Drive.saveBtn_onclick cfg0 woff0)) = [] /\
  w_pending (snd (Relay.saveBtn_onclick cfg0 woff0)) =
    Some [mkMemo (u "買い物リスト") (c_iso clock0)] /\
  w_memo (snd (Relay.saveBtn_onclick cfg0 woff0)) = [].
Proof.
  assert (H0 : trim (w_memo woff0) <> []) by (vm_compute; discriminate).
  destruct (offline_save_enqueues_and_clears cfg0 woff0 H0) as [Td Tr].
  destruct (Td eq_refl) as [Hp [Hm _]]; destruct (Tr eq_refl) as [Hp' [Hm' _]].
  exact (conj H0 (conj Hp (conj Hm (conj Hp' Hm')))).
Defined.

Lemma on_result_appends_final_text_witness :
  final_transcript sr_final0 = u "こんにちは" /\
  w_memo (snd (on_result sr_final0 woff0)) = u "買い物リスト" ++ nl ++ u "こんにちは" /\
  w_save_disabled (snd (on_result sr_final0 woff0)) = false.
Proof.
  destruct (on_result_appends_final_text sr_final0 woff0) as [Hf Himp].
  assert (Hne : List.concat (map sr_transcript (filter sr_is_final
             (skipn (ev_result_index sr_final0) (ev_results sr_final0)))) <> [])
    by (vm_compute; discriminate).
  destruct (Himp Hne) as [_ [Hm [Hd _]]].
  assert (Hw : w_memo woff0 <> []) by (vm_compute; discriminate).
  exact (conj Hf (conj (Hm Hw) Hd)).
Defined.

Lemma on_result_interim_only_noop_witness :
  forallb (fun r => negb (sr_is_final r))
    (skipn (ev_result_index sr_interim0) (ev_results sr_interim0)) = true /\
  on_result sr_interim0 woff0 = (Ok tt, woff0).
Proof.
  assert (H0 : forallb (fun r => negb (sr_is_final r))
    (skipn (ev_result_index sr_interim0) (ev_results sr_interim0)) = true)
    by (vm_compute; reflexivity).
  exact (conj H0 (on_result_interim_only_noop sr_interim0 woff0 H0)).
Defined.

Lemma failed_save_leaves_save_disabled_witness :
  trim (w_memo wfail0) <> [] /\
  w_save_disabled (snd (Drive.saveBtn_onclick cfg0 wfail0)) = true /\
  trim (w_memo (snd (Drive.saveBtn_onclick cfg0 wfail0))) <> [] /\
  w_save_disabled (snd (DrivePage.dispatch cfg0 (UInput (u "メモ")) wfail0)) = false.
Proof.
  assert (H0 : trim (w_memo wfail0) <> []) by (vm_compute; discriminate).
  assert (Hd : Drive.saveToDrive cfg0 (trim (w_memo wfail0)) (snd (Drive.saving_prelude wfail0)) =
    (Exc err0, snd (Drive.saveToDrive cfg0 (trim (w_memo wfail0)) (snd (Drive.saving_prelude wfail0)))))
    by (vm_compute; reflexivity).
  assert (Hv : trim (u "メモ") <> []) by (vm_compute; discriminate).
  destruct (failed_save_leaves_save_disabled cfg0 wfail0 H0) as [Td [_ [_ [Hi _]]]].
  destruct (Td eq_refl err0 _ Hd) as [Hs Ht].
  exact (conj H0 (conj Hs (conj Ht (proj1 (Hi _ wfail0 Hv))))).
Defined.

Lemma day_document_name_and_update_witness :
  (1000 <= c_year clock0 <= 9999 /\ 0 <= c_month clock0 <= 11 /\ 1 <= c_day clock0 <= 31) /\
  Drive.getFileName clock0 =
    four_digits 2026 ++ u "-" ++ two_digits 2 ++ u "-" ++ two_digits 20 ++ u ".md" /\
  Drive.query_files (Drive.getFileName clock0) (cfg_folder_id cfg0) (w_drive wday0) =
    [day_file0 (u "A")] /\
  exists l, w_trace (snd (Drive.saveToDrive cfg0 (u "hi") wday0)) = w_trace wday0 ++ l /\
    (forall b ok, ~ In (EvNet (ReqPost b) ok) l) /\
    List.length (w_drive (snd (Drive.saveToDrive cfg0 (u "hi") wday0))) = List.length (w_drive wday0) /\
    (fst (Drive.saveToDrive cfg0 (u "hi") wday0) = Ok tt ->
     exists b, In (EvNet (ReqPatch (u "f0") b) true) l).
Proof.
  assert (Hc : 1000 <= c_year clock0 <= 9999 /\ 0 <= c_month clock0 <= 11 /\ 1 <= c_day clock0 <= 31)
    by (cbn; lia).
  destruct Hc as [Hy [Hm Hd]].
  assert (Hq : Drive.query_files (Drive.getFileName clock0) (cfg_folder_id cfg0) (w_drive wday0) =
    [day_file0 (u "A")]) by (vm_compute; reflexivity).
  destruct (day_document_name_and_update clock0 Hy Hm Hd) as [Hn [_ Hu]].
  exact (conj (conj Hy (conj Hm Hd)) (conj Hn (conj Hq (Hu cfg0 (u "hi") wday0 _ [] eq_refl Hq)))).
Defined.

Lemma save_appends_entry_trimmed_witness :
  Drive.saveToDrive cfg0 (u "hi") wday0 = (Ok tt, snd (Drive.saveToDrive cfg0 (u "hi") wday0)) /\
  exists g, In g (w_drive (snd (Drive.saveToDrive cfg0 (u "hi") wday0))) /\
    f_name g = u "2026-02-20.md" /\
    f_body g = u "A" ++ nl ++ u "## 09:05" ++ nl ++ u "hi".
Proof.
  assert (H : Drive.saveToDrive cfg0 (u "hi") wday0 =
    (Ok tt, snd (Drive.saveToDrive cfg0 (u "hi") wday0))) by (vm_compute; reflexivity).
  destruct (save_appends_entry_trimmed cfg0 (u "hi") wday0 _ H)
    as [_ [_ [g [Hin [Hn [_ [_ Hb]]]]]]].
  split; [exact H|].
  exists g; split; [exact Hin|split].
  - rewrite Hn; vm_compute; reflexivity.
  - rewrite Hb; vm_compute; reflexivity.
Defined.

(* ================================================================= *)
(** ** Further properties of the two programs *)

(* ----------------------------------------------------------------- *)
(** *** [String.prototype.trim] *)

Arguments is_js_ws c : simpl never.

Lemma drop_ws_shape s :
  drop_ws s = [] \/ exists c r, drop_ws s = c :: r /\ is_js_ws c = false.
Proof.
  induction s as [|c r IH]; cbn; [now left|].
  destruct (is_js_ws c) eqn:E; [exact IH|right; eauto].
Qed.

Lemma drop_ws_split s :
  exists p, s = p ++ drop_ws s /\ forallb is_js_ws p = true.
Proof.
  induction s as [|c r [p [Hp Hw]]]; cbn; [now exists []|].
  destruct (is_js_ws c) eqn:E.
  - exists (c :: p); cbn; rewrite E, Hw, <- Hp; auto.
  - exists []; auto.
Qed.

Lemma drop_ws_keep c r : is_js_ws c = false -> drop_ws (c :: r) = c :: r.
Proof. intros E; cbn; rewrite E; reflexivity. Qed.

Lemma drop_ws_idem s : drop_ws (drop_ws s) = drop_ws s.
Proof.
  destruct (drop_ws_shape s) as [E|[c [r [E Hc]]]]; rewrite E; [reflexivity|].
  apply drop_ws_keep; exact Hc.
Qed.

Lemma drop_ws_nil_iff s : drop_ws s = [] <-> forallb is_js_ws s = true.
Proof.
  induction s as [|c r IH]; cbn; [split; auto|].
  destruct (is_js_ws c); cbn; [exact IH|split; discriminate].
Qed.

Lemma forallb_rev {A} (f : A -> bool) l : forallb f (rev l) = forallb f l.
Proof.
  induction l as [|x l IH]; cbn; [reflexivity|].
  rewrite forallb_app, IH; cbn; rewrite andb_true_r, andb_comm; reflexivity.
Qed.

Lemma trim_nil_iff s : trim s = [] <-> forallb is_js_ws s = true.
Proof.
  unfold trim; split.
  - intros H; apply (f_equal (@rev Z)) in H; rewrite rev_involutive in H.
    apply drop_ws_nil_iff in H; rewrite forallb_rev in H.
    destruct (drop_ws_shape s) as [E|[c [r [E Hc]]]].
    + apply drop_ws_nil_iff; exact E.
    + rewrite E in H; cbn in H; rewrite Hc in H; discriminate.
  - intros H; apply drop_ws_nil_iff in H; rewrite H; reflexivity.
Qed.

(** The first and the last unit of [trim s] are not whitespace, and
    [trim] is idempotent. *)
Lemma trim_ends s :
  (forall c r, trim s = c :: r -> is_js_ws c = false) /\
  (forall c r, rev (trim s) = c :: r -> is_js_ws c = false) /\
  trim (trim s) = trim s.
Proof.
  unfold trim.
  set (a := drop_ws s); set (b := drop_ws (rev a)).
  destruct (drop_ws_split (rev a)) as [p [Hp _]]; fold b in Hp.
  assert (Ha : a = rev b ++ rev p)
    by (rewrite <- rev_app_distr, <- Hp, rev_involutive; reflexivity).
  assert (Hhd : forall c r, rev b = c :: r -> is_js_ws c = false).
  { intros c r E; rewrite E in Ha; cbn in Ha.
    destruct (drop_ws_shape s) as [E'|[c' [r' [E' Hc']]]]; fold a in E'.
    - rewrite E' in Ha; discriminate.
    - rewrite E' in Ha; injection Ha as -> _; exact Hc'. }
  split; [exact Hhd|split].
  - intros c r E; rewrite rev_involutive in E; subst b.
    destruct (drop_ws_shape (rev a)) as [E'|[c' [r' [E' Hc']]]];
      rewrite E' in E; [discriminate|injection E as -> _; exact Hc'].
  - destruct (rev b) as [|c r] eqn:E.
    + reflexivity.
    + rewrite (drop_ws_keep c r (Hhd c r eq_refl)), <- E, rev_involutive.
      subst b; rewrite drop_ws_idem; reflexivity.
Qed.

(** X1: [trim] as the handlers use it: it gives the empty string exactly
    when every unit is ECMAScript whitespace (the ideographic space
    U+3000 included), its result neither starts nor ends with
    whitespace, and trimming twice changes nothing. *)
Theorem trim_whitespace_behaviour (s : jstr) :
  (trim s = [] <-> forallb is_js_ws s = true) /\
  (forall c r, trim s = c :: r -> is_js_ws c = false) /\
  (forall c r, rev (trim s) = c :: r -> is_js_ws c = false) /\
  trim (trim s) = trim s.
Proof.
  destruct (trim_ends s) as [H1 [H2 H3]].
  split; [apply trim_nil_iff|auto].
Qed.

(** X2: the editor's [input] listener (the same in both variants) keeps
    the edited text and disables the save control exactly when that text
    is all whitespace; nothing else of the page changes. *)
Theorem input_disables_save_iff_blank (cfg : config) (v : jstr) (w : world) :
  let w' := mkWorld v (forallb is_js_ws v) (w_online w) (w_auth w) (w_listening w)
              (w_pending w) (w_drive w) (w_fresh w) (w_net w) (w_clock w) (w_trace w) in
  DrivePage.dispatch cfg (UInput v) w = (Ok tt, w') /\
  RelayPage.dispatch cfg (UInput v) w = (Ok tt, w').
Proof.
  destruct w; cbv zeta; unfold on_input, set_memo, set_save_disabled, modify;
    cbn -[trim forallb].
  destruct (trim v) as [|c r] eqn:E.
  - apply trim_nil_iff in E; rewrite E; split; reflexivity.
  - destruct (forallb is_js_ws v) eqn:F; [apply trim_nil_iff in F; congruence|].
    split; reflexivity.
Qed.

(** X3: a click on save while the editor holds only whitespace does
    nothing at all, in both variants: no status, no queue entry, no
    request. *)
Theorem blank_save_is_noop (cfg : config) (w : world) :
  forallb is_js_ws (w_memo w) = true ->
  Drive.saveBtn_onclick cfg w = (Ok tt, w) /\
  Relay.saveBtn_onclick cfg w = (Ok tt, w) /\
  DrivePage.dispatch cfg UClickSave w = (Ok tt, w) /\
  RelayPage.dispatch cfg UClickSave w = (Ok tt, w).
Proof.
  intros Hb; apply trim_nil_iff in Hb.
  assert (Hd : Drive.saveBtn_onclick cfg w = (Ok tt, w))
    by (unfold Drive.saveBtn_onclick; cbv [bind get]; rewrite Hb; reflexivity).
  assert (Hr : Relay.saveBtn_onclick cfg w = (Ok tt, w))
    by (unfold Relay.saveBtn_onclick; cbv [bind get]; rewrite Hb; reflexivity).
  split; [exact Hd|split; [exact Hr|]].
  unfold DrivePage.dispatch, RelayPage.dispatch; cbv [bind get].
  destruct (w_save_disabled w); [split; reflexivity|split; assumption].
Qed.

(** X4: when the remote call of an online save goes through, the handler
    clears the editor, leaves the save control disabled, never touches
    the offline queue, shows the success status and schedules the return
    to the steady online status; the page is otherwise as the remote
    call left it. *)
Theorem successful_save_clears_editor_keeps_queue (cfg : config) (w w2 : world) :
  trim (w_memo w) <> [] ->
  (w_online w && w_auth w = true ->
   Drive.saveToDrive cfg (trim (w_memo w)) (snd (Drive.saving_prelude w)) = (Ok tt, w2) ->
   Drive.saveBtn_onclick cfg w =
     (Ok tt, mkWorld [] true (w_online w) (w_auth w) (w_listening w) (w_pending w)
               (w_drive w2) (w_fresh w2) (w_net w2) (w_clock w)
               (w_trace w2 ++ [EvStatus (u "Saved!") (u "online");
                               EvTimer 2000 (u "ONLINE") (u "online")]))) /\
  (w_online w = true ->
   Relay.sendMemoToSheet cfg (trim (w_memo w)) (snd (Relay.saving_prelude w)) = (Ok tt, w2) ->
   Relay.saveBtn_onclick cfg w =
     (Ok tt, mkWorld [] true (w_online w) (w_auth w) (w_listening w) (w_pending w)
               (w_drive w2) (w_fresh w2) (w_net w2) (w_clock w)
               (w_trace w2 ++ [EvStatus (u "保存しました！") (u "online");
                               EvTimer 2000 (u "ONLINE") (u "online")]))).
Proof.
  destruct w as [memo dis on au li pe dr fr ne cl tr]; cbn -[trim].
  intros Ht; destruct (trim memo) as [|c t] eqn:E; [congruence|]; split; intros Hv H.
  - pose proof (saveToDrive_remote cfg (c :: t)
                  (snd (Drive.saving_prelude
                     (mkWorld memo dis on au li pe dr fr ne cl tr)))) as [Hs _].
    cbn -[Drive.saveToDrive] in Hs, H; rewrite H in Hs; cbn in Hs.
    destruct w2 as [memo2 dis2 on2 au2 li2 pe2 dr2 fr2 ne2 cl2 tr2].
    destruct Hs as (Hm&Hd&?&?&?&Hp&Hc); cbn in *; subst.
    unfold Drive.saveBtn_onclick; cbn -[trim Drive.saveToDrive].
    try rewrite E; rewrite Hv; cbn -[Drive.saveToDrive]. cbv [try_catch bind]; cbv beta; rewrite H; cbn.
    unfold update_status, emit, modify; cbn; rewrite <- !app_assoc; reflexivity.
  - pose proof (sendMemoToSheet_remote cfg (c :: t)
                  (snd (Relay.saving_prelude
                     (mkWorld memo dis on au li pe dr fr ne cl tr)))) as [Hs _].
    cbn -[Relay.sendMemoToSheet] in Hs, H; rewrite H in Hs; cbn in Hs.
    destruct w2 as [memo2 dis2 on2 au2 li2 pe2 dr2 fr2 ne2 cl2 tr2].
    destruct Hs as (Hm&Hd&?&?&?&Hp&Hc); cbn in *; subst.
    unfold Relay.saveBtn_onclick; cbn -[trim Relay.sendMemoToSheet].
    try rewrite E; cbn -[Relay.sendMemoToSheet]. cbv [try_catch bind]; cbv beta; rewrite H; cbn.
    unfold update_status, emit, modify; cbn; rewrite <- !app_assoc; reflexivity.
Qed.

(* ----------------------------------------------------------------- *)
(** *** The relay calls *)

Lemma sendMemo_eq cfg c w :
  Relay.sendMemoToSheet cfg c w =
  let ev ok := EvNet (ReqRelay (cfg_gas_url cfg) c (locale_date_time (w_clock w))) ok in
  match w_net w with
  | Fault e :: rest => (Exc e, with_net_trace w rest [ev false])
  | net => (Ok tt, with_net_trace w (tl net) [ev true])
  end.
Proof. destruct w as [memo dis on au li pe dr fr [|[|e] os] cl tr]; reflexivity. Qed.

Lemma with_net_trace_twice w n1 l1 n2 l2 :
  with_net_trace (with_net_trace w n1 l1) n2 l2 = with_net_trace w n2 (l1 ++ l2).
Proof. unfold with_net_trace; cbn; rewrite app_assoc; reflexivity. Qed.

Lemma send_all_ok cfg q w :
  Forall (fun o => o = Success) (firstn (List.length q) (w_net w)) ->
  Relay.send_all cfg q w =
    (Ok tt, with_net_trace w (skipn (List.length q) (w_net w))
              (map (relay_sent cfg (w_clock w) true) q)).
Proof.
  revert w; induction q as [|m ms IH]; intros w Hn.
  - destruct w; unfold with_net_trace; cbn; rewrite app_nil_r; reflexivity.
  - unfold Relay.send_all; fold (Relay.send_all cfg ms); unfold bind.
    rewrite sendMemo_eq; cbv zeta.
    destruct (w_net w) as [|[|e] os] eqn:En; cbn in Hn.
    + rewrite IH by (cbn; destruct (List.length ms); constructor).
      rewrite with_net_trace_twice; cbn.
      destruct (List.length ms); reflexivity.
    + inversion Hn as [|? ? _ Hn']; subst.
      rewrite IH by exact Hn'.
      rewrite with_net_trace_twice; reflexivity.
    + inversion Hn; discriminate.
Qed.

Lemma send_all_fault cfg q1 m q2 e rest w :
  w_net w = repeat Success (List.length q1) ++ Fault e :: rest ->
  Relay.send_all cfg (q1 ++ m :: q2) w =
    (Exc e, with_net_trace w rest
              (map (relay_sent cfg (w_clock w) true) q1 ++ [relay_sent cfg (w_clock w) false m])).
Proof.
  revert w; induction q1 as [|m1 q1 IH]; intros w Hn; cbn in Hn |- *.
  - unfold Relay.send_all; fold (Relay.send_all cfg q2); unfold bind.
    rewrite sendMemo_eq, Hn; reflexivity.
  - unfold Relay.send_all; fold (Relay.send_all cfg (q1 ++ m :: q2)); unfold bind.
    rewrite sendMemo_eq, Hn; cbn.
    rewrite IH by reflexivity.
    rewrite with_net_trace_twice; reflexivity.
Qed.

(** X5: a relay sync whose calls all go through forwards every queued
    note, in queue order, each prefixed with the offline marker and sent
    to the configured URL, then removes the queue key and shows the
    success status; the editor, the control and the sign-in state are
    untouched. *)
Theorem relay_sync_sends_queue_in_order (cfg : config) (w : world) (q : list pending_memo) :
  w_online w = true -> w_pending w = Some q -> q <> [] ->
  Forall (fun o => o = Success) (firstn (List.length q) (w_net w)) ->
  Relay.syncOfflineMemosToSheet cfg w =
    (Ok tt, mkWorld (w_memo w) (w_save_disabled w) (w_online w) (w_auth w) (w_listening w)
              None (w_drive w) (w_fresh w) (skipn (List.length q) (w_net w)) (w_clock w)
              (w_trace w ++ [EvStatus (u "同期中...") (u "syncing")] ++
               map (relay_sent cfg (w_clock w) true) q ++
               [EvStoreRemove; EvStatus (u "同期完了！") (u "online");
                EvTimer 2000 (u "ONLINE") (u "online")])).
Proof.
  destruct w as [memo dis on au li pe dr fr ne cl tr]; cbn.
  intros Ho Hp Hq Hn; subst on pe; destruct q as [|m ms]; [congruence|].
  unfold Relay.syncOfflineMemosToSheet, read_pending; cbv [bind get ret try_catch]; cbn -[Relay.send_all].
  rewrite (send_all_ok cfg (m :: ms)) by exact Hn.
  unfold with_net_trace; cbn; rewrite <- !app_assoc; reflexivity.
Qed.

(** X6: a relay sync stops at the first call that rejects: the notes
    before it were sent in order, the failing note was attempted, no
    later note is sent, the queue stays as it was and the failure status
    is shown. *)
Theorem relay_sync_stops_at_first_failure (cfg : config) (w : world)
    (q1 : list pending_memo) (m : pending_memo) (q2 : list pending_memo) e rest :
  w_online w = true -> w_pending w = Some (q1 ++ m :: q2) ->
  w_net w = repeat Success (List.length q1) ++ Fault e :: rest ->
  Relay.syncOfflineMemosToSheet cfg w =
    (Ok tt, mkWorld (w_memo w) (w_save_disabled w) (w_online w) (w_auth w) (w_listening w)
              (w_pending w) (w_drive w) (w_fresh w) rest (w_clock w)
              (w_trace w ++ [EvStatus (u "同期中...") (u "syncing")] ++
               map (relay_sent cfg (w_clock w) true) q1 ++
               [relay_sent cfg (w_clock w) false m;
                EvStatus (u "同期失敗（後で再試行します）") (u "offline")])).
Proof.
  destruct w as [memo dis on au li pe dr fr ne cl tr]; cbn.
  intros Ho Hp Hn; subst on pe.
  unfold Relay.syncOfflineMemosToSheet, read_pending; cbv [bind get ret try_catch]; cbn -[Relay.send_all].
  destruct (q1 ++ m :: q2) as [|x xs] eqn:Eq; [destruct q1; discriminate|].
  rewrite <- Eq.
  rewrite (send_all_fault cfg q1 m q2 e rest) by exact Hn.
  unfold with_net_trace, update_status, emit, modify; cbn; rewrite <- !app_assoc; reflexivity.
Qed.

(** X7: [sendMemoToSheet(content)] makes exactly one call, to the
    configured URL, carrying the content unchanged and the local time as
    [YYYY/MM/DD HH:MM] (four-digit year, the rest two digits); the call's
    outcome decides whether it resolves, and nothing else of the world
    changes. *)
Theorem relay_call_format (cfg : config) (content : jstr) (w : world) :
  let c := w_clock w in
  1000 <= c_year c <= 9999 -> 0 <= c_month c <= 11 -> 1 <= c_day c <= 31 ->
  0 <= c_hour c <= 23 -> 0 <= c_minute c <= 59 ->
  let ts := four_digits (c_year c) ++ u "/" ++ two_digits (c_month c + 1) ++ u "/" ++
            two_digits (c_day c) ++ u " " ++ two_digits (c_hour c) ++ u ":" ++
            two_digits (c_minute c) in
  exists ok,
    snd (Relay.sendMemoToSheet cfg content w) =
      with_net_trace w (tl (w_net w)) [EvNet (ReqRelay (cfg_gas_url cfg) content ts) ok] /\
    (fst (Relay.sendMemoToSheet cfg content w) = Ok tt <-> ok = true).
Proof.
  intros c Hy Hm Hd Hh Hmi ts.
  assert (Ht : locale_date_time (w_clock w) = ts).
  { unfold locale_date_time, locale_time, ts, c in *.
    rewrite z_to_string_four_digits, !pad2_two_digits by lia; reflexivity. }
  rewrite sendMemo_eq; cbv zeta; rewrite Ht.
  destruct (w_net w) as [|[|e] os]; cbn.
  - exists true; split; [reflexivity|split; reflexivity].
  - exists true; split; [reflexivity|split; reflexivity].
  - exists false; split; [reflexivity|split; discriminate].
Qed.

(* ----------------------------------------------------------------- *)
(** *** The drive calls *)

(** X8: a successful [saveToDrive(content)] makes, in this order, the
    [files.list] query for the day's name in the folder, then either a
    download of the first match and a multipart PATCH of that file, or
    (no match) one multipart POST creating the file in the folder; the
    uploaded body is the existing body (empty without a match) followed
    by the timed entry, trimmed. *)
Theorem drive_save_call_sequence (cfg : config) (content : jstr) (w w' : world) :
  Drive.saveToDrive cfg content w = (Ok tt, w') ->
  let name := Drive.getFileName (w_clock w) in
  let folder := cfg_folder_id cfg in
  let time := locale_time (w_clock w) in
  w_trace w' = w_trace w ++
    match Drive.query_files name folder (w_drive w) with
    | f :: _ =>
        [EvNet (ReqList name folder) true; EvNet (ReqGet (f_id f)) true;
         EvNet (ReqPatch (f_id f)
                  (Drive.multipart (Drive.update_meta name)
                     (trim (Drive.body_of (f_id f) (w_drive w) ++ Drive.new_entry time content))))
               true]
    | [] =>
        [EvNet (ReqList name folder) true;
         EvNet (ReqPost (Drive.multipart (Drive.create_meta name folder)
                           (trim ([] ++ Drive.new_entry time content)))) true]
    end.
Proof.
  intros H; revert H; cbv zeta.
  unfold Drive.saveToDrive; cbv [bind get ret try_catch throw].
  destruct (transport _ w) as [x1 w1] eqn:T1.
  destruct (transport_inv _ _ _ _ T1) as [D1 [F1 [C1 [ok1 [Tr1 O1]]]]].
  destruct x1 as [[]|e1]; [|discriminate].
  rewrite O1 in Tr1 by reflexivity.
  rewrite D1.
  destruct (Drive.query_files _ _ (w_drive w)) as [|f rest] eqn:Hq; cbv beta iota.
  - destruct (transport (ReqPost _) w1) as [x3 w3] eqn:T3.
    destruct (transport_inv _ _ _ _ T3) as [D3 [F3 [C3 [ok3 [Tr3 O3]]]]].
    destruct x3 as [[]|e3]; [|discriminate].
    rewrite O3 in Tr3 by reflexivity.
    unfold set_drive, modify; intros H; injection H as <-; cbn [w_trace].
    rewrite Tr3, Tr1, C1, <- app_assoc; reflexivity.
  - destruct (transport (ReqGet (f_id f)) w1) as [x2 w2] eqn:T2.
    destruct (transport_inv _ _ _ _ T2) as [D2 [F2 [C2 [ok2 [Tr2 O2]]]]].
    destruct x2 as [[]|e2]; cbv beta iota; [|discriminate].
    rewrite O2 in Tr2 by reflexivity.
    destruct (transport (ReqPatch _ _) w2) as [x3 w3] eqn:T3.
    destruct (transport_inv _ _ _ _ T3) as [D3 [F3 [C3 [ok3 [Tr3 O3]]]]].
    destruct x3 as [[]|e3]; [|discriminate].
    rewrite O3 in Tr3 by reflexivity.
    unfold set_drive, modify; intros H; injection H as <-; cbn [w_trace].
    rewrite Tr3, Tr2, Tr1, D2, D1, C2, C1, <- !app_assoc; reflexivity.
Qed.

Lemma transport_fault r w e w' :
  transport r w = (Exc e, w') ->
  w_drive w' = w_drive w /\ w_trace w' = w_trace w ++ [EvNet r false].
Proof.
  destruct w as [memo dis on au li pe dr fr [|[|e'] os] cl tr]; unfold transport; cbn;
    intros H; inversion H; subst; split; reflexivity.
Qed.

(** X9: a [saveToDrive] that rejects stops at the call that faulted (it is
    the last thing recorded) and leaves every document of the drive as it
    was. *)
Theorem drive_save_failure_changes_nothing (cfg : config) (content : jstr) (w w' : world) e :
  Drive.saveToDrive cfg content w = (Exc e, w') ->
  w_drive w' = w_drive w /\
  exists l r, w_trace w' = w_trace w ++ l ++ [EvNet r false].
Proof.
  intros H; revert H.
  unfold Drive.saveToDrive; cbv [bind get ret try_catch throw].
  destruct (transport _ w) as [x1 w1] eqn:T1.
  destruct x1 as [[]|e1].
  - destruct (transport_inv _ _ _ _ T1) as [D1 [F1 [C1 [ok1 [Tr1 O1]]]]].
    rewrite D1.
    destruct (Drive.query_files _ _ (w_drive w)) as [|f rest] eqn:Hq; cbv beta iota.
    + destruct (transport (ReqPost _) w1) as [x3 w3] eqn:T3.
      destruct x3 as [[]|e3]; [discriminate|].
      destruct (transport_fault _ _ _ _ T3) as [D3 Tr3].
      intros H; injection H as -> <-.
      split; [congruence|].
      rewrite Tr3, Tr1, <- app_assoc; do 2 eexists; reflexivity.
    + destruct (transport (ReqGet (f_id f)) w1) as [x2 w2] eqn:T2.
      destruct x2 as [[]|e2]; cbv beta iota.
      * destruct (transport_inv _ _ _ _ T2) as [D2 [F2 [C2 [ok2 [Tr2 O2]]]]].
        destruct (transport (ReqPatch _ _) w2) as [x3 w3] eqn:T3.
        destruct x3 as [[]|e3]; [discriminate|].
        destruct (transport_fault _ _ _ _ T3) as [D3 Tr3].
        intros H; injection H as -> <-.
        split; [congruence|].
        rewrite Tr3, Tr2, Tr1, <- (app_assoc (w_trace w)), <- app_assoc; do 2 eexists; reflexivity.
      * destruct (transport_fault _ _ _ _ T2) as [D2 Tr2].
        intros H; injection H as -> <-.
        split; [congruence|].
        rewrite Tr2, Tr1, <- !app_assoc; do 2 eexists; reflexivity.
  - destruct (transport_fault _ _ _ _ T1) as [D1 Tr1].
    intros H; injection H as -> <-.
    split; [exact D1|].
    rewrite Tr1; exists []; eexists; reflexivity.
Qed.

(* ----------------------------------------------------------------- *)
(** *** Distinct days, distinct documents *)

Lemma two_digits_inj n n' : two_digits n = two_digits n' -> n = n'.
Proof.
  unfold two_digits; intros H.
  pose proof (f_equal (fun l => nth 0 l 0) H); pose proof (f_equal (fun l => nth 1 l 0) H);
    cbn [nth] in *.
  pose proof (Z.div_mod n 10 ltac:(lia)); pose proof (Z.div_mod n' 10 ltac:(lia)); lia.
Qed.

Lemma four_digits_inj n n' : four_digits n = four_digits n' -> n = n'.
Proof.
  unfold four_digits; intros H.
  pose proof (f_equal (fun l => nth 0 l 0) H) as E0.
  pose proof (f_equal (fun l => nth 1 l 0) H) as E1.
  pose proof (f_equal (fun l => nth 2 l 0) H) as E2.
  pose proof (f_equal (fun l => nth 3 l 0) H) as E3.
  cbn [nth] in E0, E1, E2, E3.
  assert (A : n / 100 = n / 10 / 10) by (rewrite Z.div_div; [reflexivity|lia|lia]).
  assert (B : n / 1000 = n / 10 / 10 / 10) by (rewrite !Z.div_div; [reflexivity|lia..]).
  assert (A' : n' / 100 = n' / 10 / 10) by (rewrite Z.div_div; [reflexivity|lia|lia]).
  assert (B' : n' / 1000 = n' / 10 / 10 / 10) by (rewrite !Z.div_div; [reflexivity|lia..]).
  rewrite A, A' in E1; rewrite B, B' in E0.
  pose proof (Z.div_mod n 10 ltac:(lia)); pose proof (Z.div_mod n' 10 ltac:(lia)).
  pose proof (Z.div_mod (n / 10) 10 ltac:(lia)); pose proof (Z.div_mod (n' / 10) 10 ltac:(lia)).
  pose proof (Z.div_mod (n / 10 / 10) 10 ltac:(lia)).
  pose proof (Z.div_mod (n' / 10 / 10) 10 ltac:(lia)).
  lia.
Qed.

Lemma app_same_length {A} (l1 l1' r r' : list A) :
  List.length l1 = List.length l1' -> l1 ++ r = l1' ++ r' -> l1 = l1' /\ r = r'.
Proof.
  revert l1'; induction l1 as [|x l1 IH]; intros [|x' l1'] Hl H; cbn in *;
    try discriminate; [auto|].
  injection H as -> H; injection Hl as Hl.
  destruct (IH l1' Hl H) as [-> ->]; auto.
Qed.

(** X10: two calendar dates (four-digit year) get the same document name
    only when they are the same date: each day's notes go to a document
    of its own. *)
Theorem day_names_distinct (c c' : clock) :
  1000 <= c_year c <= 9999 -> 0 <= c_month c <= 11 -> 1 <= c_day c <= 31 ->
  1000 <= c_year c' <= 9999 -> 0 <= c_month c' <= 11 -> 1 <= c_day c' <= 31 ->
  Drive.getFileName c = Drive.getFileName c' ->
  c_year c = c_year c' /\ c_month c = c_month c' /\ c_day c = c_day c'.
Proof.
  intros Hy Hm Hd Hy' Hm' Hd' H.
  unfold Drive.getFileName in H; cbv zeta in H.
  rewrite (z_to_string_four_digits (c_year c)), (z_to_string_four_digits (c_year c')),
    !pad2_two_digits in H by lia.
  apply app_same_length in H as [E1 H]; [|reflexivity].
  apply app_inv_head in H.
  apply app_same_length in H as [E2 H]; [|reflexivity].
  apply app_inv_head in H.
  apply app_same_length in H as [E3 _]; [|reflexivity].
  apply four_digits_inj in E1; apply two_digits_inj in E2; apply two_digits_inj in E3.
  repeat split; lia.
Qed.

(* ----------------------------------------------------------------- *)
(** *** The drive sync *)

(** X11: the drive sync removes the queue only after one [saveToDrive] of
    the whole queue's combined text went through; the drive is then as
    that save left it, and the removal, the success status and the
    scheduled return to the online status are all that follow. *)
Theorem drive_sync_clears_after_one_combined_save (cfg : config) (w : world) (q : list pending_memo) :
  w_auth w = true -> w_online w = true -> w_pending w = Some q -> q <> [] ->
  w_pending (snd (Drive.syncPendingData cfg w)) = None ->
  exists w2,
    Drive.saveToDrive cfg (Drive.combined_text q)
      (snd (update_status (u "Syncing...") (u "syncing") w)) = (Ok tt, w2) /\
    w_drive (snd (Drive.syncPendingData cfg w)) = w_drive w2 /\
    w_trace (snd (Drive.syncPendingData cfg w)) =
      w_trace w2 ++ [EvStoreRemove; EvStatus (u "Synced!") (u "online");
                     EvTimer 2000 (u "ONLINE") (u "online")].
Proof.
  destruct w as [memo dis on au li pe dr fr ne cl tr]; cbn.
  intros Ha Ho Hp Hq; subst au on pe; destruct q as [|m ms]; [congruence|].
  unfold Drive.syncPendingData, read_pending; cbv [bind get ret try_catch]; cbn -[Drive.saveToDrive].
  pose proof (saveToDrive_remote cfg (Drive.combined_text (m :: ms))
    (snd (update_status (u "Syncing...") (u "syncing")
       (mkWorld memo dis true true li (Some (m :: ms)) dr fr ne cl tr)))) as [Hs _].
  cbn -[Drive.saveToDrive] in Hs |- *.
  destruct (Drive.saveToDrive _ _ _) as [[[]|e] w2] eqn:S; cbn in Hs |- *.
  - intros _; exists w2; split; [reflexivity|].
    unfold update_status, emit, modify; cbn; rewrite <- !app_assoc; split; reflexivity.
  - destruct Hs as (_&_&_&_&_&Hp'&_); cbn in Hp'.
    unfold update_status, emit, modify; cbn; rewrite Hp'; discriminate.
Qed.

(* ----------------------------------------------------------------- *)
(** *** Events that stay on the page *)

(** X12: typing, dictation results, the recognizer starting or ending,
    going offline and a status timer firing make no outbound call in
    either variant: what they add to the trace holds no call, and they
    leave the stored queue, the drive, the id supply and the transport
    untouched. *)
Theorem local_events_make_no_call (cfg : config) (ev : ui_event) (w : world) :
  match ev with UClickSave | UOnline | UAuthOk => False | _ => True end ->
  (let w' := snd (DrivePage.dispatch cfg ev w) in
   exists l, w_trace w' = w_trace w ++ l /\ net_free l /\
     w_pending w' = w_pending w /\ w_drive w' = w_drive w /\
     w_fresh w' = w_fresh w /\ w_net w' = w_net w) /\
  (let w' := snd (RelayPage.dispatch cfg ev w) in
   exists l, w_trace w' = w_trace w ++ l /\ net_free l /\
     w_pending w' = w_pending w /\ w_drive w' = w_drive w /\
     w_fresh w' = w_fresh w /\ w_net w' = w_net w).
Proof.
  destruct w as [memo dis on au li pe dr fr ne cl tr].
  intros Hev; destruct ev; try contradiction; clear Hev;
    unfold DrivePage.dispatch, RelayPage.dispatch, on_input, on_result;
    cbv [bind get ret update_status emit set_memo set_save_disabled set_listening
         set_online modify];
    cbn -[trim final_transcript];
    repeat match goal with |- context [match ?x with _ => _ end] => destruct x end;
    cbn; split;
    (first [exists []; rewrite app_nil_r; split; [reflexivity|]
           | eexists; split; [reflexivity|]]);
    (split; [intros r ok Hin; cbn in Hin; intuition discriminate|]);
    repeat split.
Qed.

(* ----------------------------------------------------------------- *)
(** *** How the stored queue evolves *)

(** From [w] to [w']: the trace grew by [l], and the queue is as it was,
    or grew by one note at its end with the new queue written to
    storage, or was removed with the removal written to storage. *)
Definition queue_change (w w' : world) : Prop :=
  exists l, w_trace w' = w_trace w ++ l /\
    (w_pending w' = w_pending w \/
     (exists x, w_pending w' = Some (queue w ++ [x]) /\ In (EvStoreSet (queue w ++ [x])) l) \/
     (w_pending w' = None /\ In EvStoreRemove l)).

Definition queue_step {A} (m : M A) : Prop := forall w, queue_change w (snd (m w)).

Definition keeps_queue {A} (m : M A) : Prop :=
  forall w, w_pending (snd (m w)) = w_pending w /\
            exists l, w_trace (snd (m w)) = w_trace w ++ l.

Lemma kq_remote {A} (m : M A) : remote m -> keeps_queue m.
Proof.
  intros Hm w; destruct (Hm w) as [(_&_&_&_&_&Hp&_) [l [Ht _]]]; eauto.
Qed.

Lemma kq_modify f :
  (forall w, w_pending (f w) = w_pending w /\ exists l, w_trace (f w) = w_trace w ++ l) ->
  keeps_queue (modify f).
Proof. intros H w; exact (H w). Qed.

Lemma kq_ret {A} (a : A) : keeps_queue (ret a).
Proof. intros w; split; [reflexivity|exists []; symmetry; apply app_nil_r]. Qed.

Lemma kq_get : keeps_queue get.
Proof. intros w; split; [reflexivity|exists []; symmetry; apply app_nil_r]. Qed.

Lemma kq_bind {A B} (m : M A) (k : A -> M B) :
  keeps_queue m -> (forall a, keeps_queue (k a)) -> keeps_queue (bind m k).
Proof.
  intros Hm Hk w; unfold bind.
  destruct (Hm w) as [Hp1 [l1 Ht1]]; destruct (m w) as [[a|e] w1]; cbn in *; [|eauto].
  destruct (Hk a w1) as [Hp2 [l2 Ht2]].
  split; [congruence|exists (l1 ++ l2); rewrite Ht2, Ht1, app_assoc; reflexivity].
Qed.

Lemma kq_try_catch {A} (m : M A) h :
  keeps_queue m -> (forall e, keeps_queue (h e)) -> keeps_queue (try_catch m h).
Proof.
  intros Hm Hh w; unfold try_catch.
  destruct (Hm w) as [Hp1 [l1 Ht1]]; destruct (m w) as [[a|e] w1]; cbn in *; [eauto|].
  destruct (Hh e w1) as [Hp2 [l2 Ht2]].
  split; [congruence|exists (l1 ++ l2); rewrite Ht2, Ht1, app_assoc; reflexivity].
Qed.

Ltac kq_base :=
  apply kq_modify; intros [];
  (split; [reflexivity|first [exists []; symmetry; apply app_nil_r | eexists; reflexivity]]).

Ltac kq_solve :=
  repeat first
    [ apply kq_ret | apply kq_get
    | apply kq_remote; first [apply saveToDrive_remote | apply sendMemoToSheet_remote
                             | apply send_all_remote]
    | apply kq_bind; intros; cbv beta
    | apply kq_try_catch; intros; cbv beta
    | progress unfold update_status, emit, set_memo, set_save_disabled, set_online,
        set_auth, set_listening, read_pending; kq_base
    | kq_base
    | match goal with |- keeps_queue (match ?x with _ => _ end) => destruct x end ].

Lemma qs_keeps {A} (m : M A) : keeps_queue m -> queue_step m.
Proof. intros Hm w; destruct (Hm w) as [Hp [l Ht]]; exists l; auto. Qed.

Lemma queue_change_extend w w1 w2 l1 :
  w_pending w1 = w_pending w -> w_trace w1 = w_trace w ++ l1 ->
  queue_change w1 w2 -> queue_change w w2.
Proof.
  intros Hp Ht [l [Ht2 H]]; exists (l1 ++ l); rewrite Ht2, Ht, app_assoc; split; [reflexivity|].
  unfold queue in *; rewrite Hp in H.
  destruct H as [H|[[x [H1 H2]]|[H1 H2]]]; [left; congruence|right; left|right; right].
  - exists x; split; [exact H1|apply in_or_app; auto].
  - split; [exact H1|apply in_or_app; auto].
Qed.

Lemma queue_change_then w w1 w2 l2 :
  queue_change w w1 -> w_pending w2 = w_pending w1 -> w_trace w2 = w_trace w1 ++ l2 ->
  queue_change w w2.
Proof.
  intros [l [Ht1 H]] Hp Ht; exists (l ++ l2); rewrite Ht, Ht1, app_assoc; split; [reflexivity|].
  rewrite Hp.
  destruct H as [H|[[x [H1 H2]]|[H1 H2]]]; [left; exact H|right; left|right; right].
  - exists x; split; [exact H1|apply in_or_app; auto].
  - split; [exact H1|apply in_or_app; auto].
Qed.

Lemma qs_bind_kq {A B} (m : M A) (k : A -> M B) :
  keeps_queue m -> (forall a, queue_step (k a)) -> queue_step (bind m k).
Proof.
  intros Hm Hk w; unfold bind.
  destruct (Hm w) as [Hp1 [l1 Ht1]]; destruct (m w) as [[a|e] w1]; cbn in *.
  - exact (queue_change_extend w w1 _ l1 Hp1 Ht1 (Hk a w1)).
  - exists l1; auto.
Qed.

Lemma qs_bind_qk {A B} (m : M A) (k : A -> M B) :
  queue_step m -> (forall a, keeps_queue (k a)) -> queue_step (bind m k).
Proof.
  intros Hm Hk w; unfold bind.
  pose proof (Hm w) as H1; destruct (m w) as [[a|e] w1]; cbn in *; [|exact H1].
  destruct (Hk a w1) as [Hp2 [l2 Ht2]].
  exact (queue_change_then w w1 _ l2 H1 Hp2 Ht2).
Qed.

Lemma qs_try_kq {A} (m : M A) h :
  keeps_queue m -> (forall e, queue_step (h e)) -> queue_step (try_catch m h).
Proof.
  intros Hm Hh w; unfold try_catch.
  destruct (Hm w) as [Hp1 [l1 Ht1]]; destruct (m w) as [[a|e] w1]; cbn in *.
  - exists l1; auto.
  - exact (queue_change_extend w w1 _ l1 Hp1 Ht1 (Hh e w1)).
Qed.

Lemma qs_try_qk {A} (m : M A) h :
  queue_step m -> (forall e, keeps_queue (h e)) -> queue_step (try_catch m h).
Proof.
  intros Hm Hh w; unfold try_catch.
  pose proof (Hm w) as H1; destruct (m w) as [[a|e] w1]; cbn in *; [exact H1|].
  destruct (Hh e w1) as [Hp2 [l2 Ht2]].
  exact (queue_change_then w w1 _ l2 H1 Hp2 Ht2).
Qed.

Lemma qs_save_to_local text : queue_step (save_to_local text).
Proof.
  intros [memo dis on au li pe dr fr ne cl tr]; unfold queue; cbn.
  eexists; split; [reflexivity|]; right; left.
  eexists; split; [reflexivity|left; reflexivity].
Qed.

Lemma qs_clear (k : M unit) : keeps_queue k -> queue_step (set_pending None ;;; emit EvStoreRemove ;;; k).
Proof.
  intros Hk [memo dis on au li pe dr fr ne cl tr]; cbn.
  destruct (Hk (mkWorld memo dis on au li None dr fr ne cl (tr ++ [EvStoreRemove])))
    as [Hp [l Ht]]; cbn in Hp, Ht.
  exists (EvStoreRemove :: l); rewrite Ht, <- app_assoc; split; [reflexivity|].
  right; right; split; [exact Hp|left; reflexivity].
Qed.

Ltac qs_solve :=
  repeat first
    [ apply qs_keeps; solve [kq_solve]
    | apply qs_save_to_local
    | apply qs_clear; solve [kq_solve]
    | apply qs_bind_kq; [solve [kq_solve]|intros; cbv beta]
    | apply qs_try_kq; [solve [kq_solve]|intros; cbv beta]
    | apply qs_bind_qk; [|intros; solve [kq_solve]]
    | apply qs_try_qk; [|intros; solve [kq_solve]]
    | match goal with |- queue_step (match ?x with _ => _ end) => destruct x end ].

(** X13: whatever event fires, in either variant, the stored queue either
    stays as it was, or grows by exactly one note at its end, or is
    removed; a growth or a removal is written to storage along the way.
    No event drops, reorders or edits a queued note. *)
Theorem queue_grows_at_end_or_is_removed (cfg : config) (ev : ui_event) (w : world) :
  queue_change w (snd (DrivePage.dispatch cfg ev w)) /\
  queue_change w (snd (RelayPage.dispatch cfg ev w)).
Proof.
  enough (queue_step (DrivePage.dispatch cfg ev) /\ queue_step (RelayPage.dispatch cfg ev))
    as [H1 H2] by exact (conj (H1 w) (H2 w)).
  split; destruct ev;
    unfold DrivePage.dispatch, RelayPage.dispatch, on_input, on_result,
      Drive.saveBtn_onclick, Relay.saveBtn_onclick, Drive.syncPendingData,
      Relay.syncOfflineMemosToSheet, Drive.saving_prelude, Relay.saving_prelude,
      Relay.handleSaveFailure;
    cbv zeta; qs_solve.
Qed.

(* ----------------------------------------------------------------- *)
(** *** Loading the relay page *)

(** X14: on load the relay page first shows the connection status read
    from the browser; if the page is offline or nothing is queued, that
    is all it does (no call, no storage write); if it is online and the
    queued notes' calls all go through, it then forwards the whole queue
    in order and removes the queue key. *)
Theorem relay_load_status_then_sync (cfg : config) (nav : bool) (w : world) :
  let st := if nav then EvStatus (u "ONLINE") (u "online")
            else EvStatus (u "OFFLINE") (u "offline") in
  ((w_online w = false \/ queue w = []) ->
     RelayPage.on_load cfg nav w = (Ok tt, with_net_trace w (w_net w) [st])) /\
  (forall q, w_online w = true -> w_pending w = Some q -> q <> [] ->
     Forall (fun o => o = Success) (firstn (List.length q) (w_net w)) ->
     RelayPage.on_load cfg nav w =
       (Ok tt, mkWorld (w_memo w) (w_save_disabled w) (w_online w) (w_auth w) (w_listening w)
                 None (w_drive w) (w_fresh w) (skipn (List.length q) (w_net w)) (w_clock w)
                 (w_trace w ++ [st; EvStatus (u "同期中...") (u "syncing")] ++
                  map (relay_sent cfg (w_clock w) true) q ++
                  [EvStoreRemove; EvStatus (u "同期完了！") (u "online");
                   EvTimer 2000 (u "ONLINE") (u "online")]))).
Proof.
  destruct w as [memo dis on au li pe dr fr ne cl tr]; unfold queue; cbn.
  unfold RelayPage.on_load, RelayPage.updateOnlineStatusDisplay,
    RelayPage.checkOfflineUnsavedMemos, Relay.syncOfflineMemosToSheet, read_pending.
  split.
  - intros [Ho|Hq].
    + subst on; destruct nav; reflexivity.
    + destruct on, nav; cbn; rewrite ?Hq; reflexivity.
  - intros q Ho Hp Hq Hn; subst on pe; destruct q as [|m ms]; [congruence|].
    destruct nav; cbv [bind get ret try_catch update_status emit modify];
      cbn -[Relay.send_all];
      rewrite (send_all_ok cfg (m :: ms)) by exact Hn;
      unfold with_net_trace; cbn; rewrite <- !app_assoc; reflexivity.
Qed.

(* ----------------------------------------------------------------- *)
(** *** What a sync reads of the queue *)

(** [w] with its stored queue replaced by [p]. *)
Definition with_pending (p : option (list pending_memo)) (w : world) : world :=
  mkWorld (w_memo w) (w_save_disabled w) (w_online w) (w_auth w) (w_listening w)
    p (w_drive w) (w_fresh w) (w_net w) (w_clock w) (w_trace w).

(** Two worlds that differ at most in the stored queue. *)
Definition same_but_queue (w1 w2 : world) : Prop :=
  with_pending None w1 = with_pending None w2.

(** [m] does not read the stored queue: from worlds that differ only
    there it gives the same result and worlds that differ only there. *)
Definition queue_blind {A} (m : M A) : Prop :=
  forall w1 w2, same_but_queue w1 w2 ->
    fst (m w1) = fst (m w2) /\ same_but_queue (snd (m w1)) (snd (m w2)).

Lemma same_but_queue_eq w1 w2 :
  same_but_queue w1 w2 ->
  w_memo w1 = w_memo w2 /\ w_save_disabled w1 = w_save_disabled w2 /\
  w_online w1 = w_online w2 /\ w_auth w1 = w_auth w2 /\
  w_listening w1 = w_listening w2 /\ w_drive w1 = w_drive w2 /\
  w_fresh w1 = w_fresh w2 /\ w_net w1 = w_net w2 /\
  w_clock w1 = w_clock w2 /\ w_trace w1 = w_trace w2.
Proof.
  unfold same_but_queue, with_pending; intros H; injection H; intros; repeat split; assumption.
Qed.

Lemma qb_ret {A} (a : A) : queue_blind (ret a).
Proof. intros w1 w2 H; split; [reflexivity|exact H]. Qed.

Lemma qb_throw {A} e : queue_blind (@throw A e).
Proof. intros w1 w2 H; split; [reflexivity|exact H]. Qed.

Lemma qb_modify f :
  (forall w1 w2, same_but_queue w1 w2 -> same_but_queue (f w1) (f w2)) ->
  queue_blind (modify f).
Proof. intros Hf w1 w2 H; split; [reflexivity|exact (Hf w1 w2 H)]. Qed.

Lemma qb_transport r : queue_blind (transport r).
Proof.
  intros [memo dis on au li pe dr fr ne cl tr] [memo' dis' on' au' li' pe' dr' fr' ne' cl' tr'] H.
  pose proof (same_but_queue_eq _ _ H) as E; cbn in E.
  destruct E as (?&?&?&?&?&?&?&?&?&?); subst.
  unfold transport; cbn.
  first [destruct ne as [|[|e] os] | destruct ne' as [|[|e] os]]; cbn;
    (split; [reflexivity|reflexivity]).
Qed.

Lemma qb_bind {A B} (m : M A) (k : A -> M B) :
  queue_blind m -> (forall a, queue_blind (k a)) -> queue_blind (bind m k).
Proof.
  intros Hm Hk w1 w2 H; unfold bind.
  destruct (Hm w1 w2 H) as [Hr Hs].
  destruct (m w1) as [r1 v1], (m w2) as [r2 v2]; cbn in *; subst r2.
  destruct r1 as [a|e]; [exact (Hk a v1 v2 Hs)|split; [reflexivity|exact Hs]].
Qed.

Lemma qb_try_catch {A} (m : M A) h :
  queue_blind m -> (forall e, queue_blind (h e)) -> queue_blind (try_catch m h).
Proof.
  intros Hm Hh w1 w2 H; unfold try_catch.
  destruct (Hm w1 w2 H) as [Hr Hs].
  destruct (m w1) as [r1 v1], (m w2) as [r2 v2]; cbn in *; subst r2.
  destruct r1 as [a|e]; [split; [reflexivity|exact Hs]|exact (Hh e v1 v2 Hs)].
Qed.

(** [get] reads the whole world; a continuation that reads none of the
    queue through it is blind. *)
Lemma qb_bind_get {B} (k : world -> M B) :
  (forall w, k w = k (with_pending None w)) ->
  (forall w, queue_blind (k w)) -> queue_blind (bind get k).
Proof.
  intros Hk Hb w1 w2 H; unfold bind, get.
  rewrite (Hk w1), (Hk w2), <- H, <- (Hk w1).
  exact (Hb w1 w1 w2 H).
Qed.

Ltac qb_modify_tac :=
  apply qb_modify; intros [] [] H; pose proof (same_but_queue_eq _ _ H) as E; cbn in E;
  destruct E as (?&?&?&?&?&?&?&?&?&?); subst; reflexivity.

Ltac qb_solve :=
  repeat
    lazymatch goal with
    | |- queue_blind (ret _) => apply qb_ret
    | |- queue_blind (throw _) => apply qb_throw
    | |- queue_blind (transport _) => apply qb_transport
    | |- queue_blind (bind get _) => apply qb_bind_get; [intros; reflexivity|intros; cbv beta]
    | |- queue_blind (bind _ _) => apply qb_bind; intros; cbv beta
    | |- queue_blind (try_catch _ _) => apply qb_try_catch; intros; cbv beta
    | |- queue_blind (set_drive _ _) => unfold set_drive; qb_modify_tac
    | |- queue_blind (update_status _ _) => unfold update_status, emit; qb_modify_tac
    | |- queue_blind (emit _) => unfold emit; qb_modify_tac
    | |- queue_blind (set_pending _) => unfold set_pending; qb_modify_tac
    | |- queue_blind (match ?x with _ => _ end) => destruct x
    end.

Lemma saveToDrive_blind cfg c : queue_blind (Drive.saveToDrive cfg c).
Proof. unfold Drive.saveToDrive; cbv zeta; qb_solve. Qed.

Lemma send_all_blind cfg q : queue_blind (Relay.send_all cfg q).
Proof.
  induction q as [|m ms IH]; unfold Relay.send_all; [apply qb_ret|].
  fold (Relay.send_all cfg ms); apply qb_bind; [|intros; exact IH].
  unfold Relay.sendMemoToSheet; qb_solve.
Qed.

Lemma combined_text_texts (q q' : list pending_memo) :
  map pm_text q = map pm_text q' -> Drive.combined_text q = Drive.combined_text q'.
Proof.
  unfold Drive.combined_text; rewrite !combined_fold; intros H; f_equal.
  revert q' H; induction q as [|m ms IH]; intros [|m' ms'] H; try discriminate; [reflexivity|].
  injection H as H1 H2; cbn [flat_map]; rewrite (IH ms' H2); unfold Drive.synced_entry; rewrite H1; reflexivity.
Qed.

Lemma send_all_texts cfg (q q' : list pending_memo) :
  map pm_text q = map pm_text q' -> Relay.send_all cfg q = Relay.send_all cfg q'.
Proof.
  revert q'; induction q as [|m ms IH]; intros [|m' ms'] H; try discriminate; [reflexivity|].
  injection H as H1 H2; unfold Relay.send_all; fold (Relay.send_all cfg ms) (Relay.send_all cfg ms').
  rewrite H1, (IH ms' H2); reflexivity.
Qed.

Lemma drive_sync_body cfg w q :
  w_auth w = true -> w_online w = true -> w_pending w = Some q -> q <> [] ->
  Drive.syncPendingData cfg w =
    (update_status (u "Syncing...") (u "syncing") ;;;
     try_catch
       (Drive.saveToDrive cfg (Drive.combined_text q) ;;;
        set_pending None ;;;
        emit EvStoreRemove ;;;
        update_status (u "Synced!") (u "online") ;;;
        emit (EvTimer 2000 (u "ONLINE") (u "online")))
       (fun _ => update_status (u "Sync Failed") (u "offline"))) w.
Proof.
  destruct w; cbn; intros; subst; destruct q; [congruence|reflexivity].
Qed.

Lemma relay_sync_body cfg w q :
  w_online w = true -> w_pending w = Some q -> q <> [] ->
  Relay.syncOfflineMemosToSheet cfg w =
    (update_status (u "同期中...") (u "syncing") ;;;
     try_catch
       (Relay.send_all cfg q ;;;
        set_pending None ;;;
        emit EvStoreRemove ;;;
        update_status (u "同期完了！") (u "online") ;;;
        emit (EvTimer 2000 (u "ONLINE") (u "online")))
       (fun _ => update_status (u "同期失敗（後で再試行します）") (u "offline"))) w.
Proof.
  destruct w; cbn; intros; subst; destruct q; [congruence|reflexivity].
Qed.

(** X15: a sync reads nothing of the queued notes but their texts, in
    order: two queues with the same texts and different saved timestamps
    lead, in either variant, to the same outcome and to the same world
    apart from the queue itself (same calls, same drive, same trace). *)
Theorem syncs_ignore_queued_timestamps (cfg : config) (w : world) (q q' : list pending_memo) :
  w_pending w = Some q -> map pm_text q = map pm_text q' ->
  let w' := with_pending (Some q') w in
  (fst (Drive.syncPendingData cfg w') = fst (Drive.syncPendingData cfg w) /\
   same_but_queue (snd (Drive.syncPendingData cfg w')) (snd (Drive.syncPendingData cfg w))) /\
  (fst (Relay.syncOfflineMemosToSheet cfg w') = fst (Relay.syncOfflineMemosToSheet cfg w) /\
   same_but_queue (snd (Relay.syncOfflineMemosToSheet cfg w'))
                  (snd (Relay.syncOfflineMemosToSheet cfg w))).
Proof.
  destruct w as [memo dis on au li pe dr fr ne cl tr]; cbv zeta; unfold with_pending.
  cbn [w_memo w_save_disabled w_online w_auth w_listening w_pending w_drive w_fresh
       w_net w_clock w_trace].
  intros Hp Ht; subst pe.
  destruct q as [|m ms], q' as [|m' ms']; try discriminate.
  { split; unfold Drive.syncPendingData, Relay.syncOfflineMemosToSheet; cbn;
      [destruct (negb au || negb on)|destruct (negb on)]; (split; reflexivity). }
  split.
  - destruct au, on; try (unfold Drive.syncPendingData; cbn; split; reflexivity).
    rewrite (drive_sync_body cfg _ (m' :: ms')), (drive_sync_body cfg _ (m :: ms))
      by (reflexivity || discriminate).
    rewrite (combined_text_texts (m :: ms) (m' :: ms') Ht).
    apply qb_bind; [qb_solve| |reflexivity].
    intros; apply qb_try_catch; intros; [|qb_solve].
    apply qb_bind; [apply saveToDrive_blind|intros; qb_solve].
  - destruct on; try (unfold Relay.syncOfflineMemosToSheet; cbn; split; reflexivity).
    rewrite (relay_sync_body cfg _ (m' :: ms')), (relay_sync_body cfg _ (m :: ms))
      by (reflexivity || discriminate).
    rewrite (send_all_texts cfg (m :: ms) (m' :: ms') Ht).
    apply qb_bind; [qb_solve| |reflexivity].
    intros; apply qb_try_catch; intros; [|qb_solve].
    apply qb_bind; [apply send_all_blind|intros; qb_solve].
Qed.

(* ----------------------------------------------------------------- *)
(** *** Instances of the properties above *)

(** A note of blanks: a space, a newline and an ideographic space. *)
Definition wblank0 : world := world0 [32; 10; 12288] true true None [] [].

(** Online and signed in, a note in the editor and one queued note. *)
Definition wsave0 : world := world0 (u "買い物リスト") true true (Some [memo0]) [] [].

Definition memo1 : pending_memo := mkMemo (u "卵") (u "2026-02-19T11:00:00.000Z").

Definition memo2 : pending_memo := mkMemo (u "パン") (u "2026-02-19T12:00:00.000Z").

Lemma blank_save_is_noop_witness :
  forallb is_js_ws (w_memo wblank0) = true /\
  Drive.saveBtn_onclick cfg0 wblank0 = (Ok tt, wblank0) /\
  Relay.saveBtn_onclick cfg0 wblank0 = (Ok tt, wblank0).
Proof.
  assert (H : forallb is_js_ws (w_memo wblank0) = true) by (vm_compute; reflexivity).
  destruct (blank_save_is_noop cfg0 wblank0 H) as [Hd [Hr _]].
  exact (conj H (conj Hd Hr)).
Defined.

Lemma successful_save_clears_editor_keeps_queue_witness :
  trim (w_memo wsave0) <> [] /\
  w_memo (snd (Drive.saveBtn_onclick cfg0 wsave0)) = [] /\
  w_pending (snd (Drive.saveBtn_onclick cfg0 wsave0)) = Some [memo0] /\
  w_memo (snd (Relay.saveBtn_onclick cfg0 wsave0)) = [] /\
  w_pending (snd (Relay.saveBtn_onclick cfg0 wsave0)) = Some [memo0].
Proof.
  assert (H : trim (w_memo wsave0) <> []) by (vm_compute; discriminate).
  assert (Hd : Drive.saveToDrive cfg0 (trim (w_memo wsave0)) (snd (Drive.saving_prelude wsave0)) =
    (Ok tt, snd (Drive.saveToDrive cfg0 (trim (w_memo wsave0)) (snd (Drive.saving_prelude wsave0)))))
    by (vm_compute; reflexivity).
  assert (Hr : Relay.sendMemoToSheet cfg0 (trim (w_memo wsave0)) (snd (Relay.saving_prelude wsave0)) =
    (Ok tt, snd (Relay.sendMemoToSheet cfg0 (trim (w_memo wsave0)) (snd (Relay.saving_prelude wsave0)))))
    by (vm_compute; reflexivity).
  pose proof (proj1 (successful_save_clears_editor_keeps_queue cfg0 wsave0 _ H) eq_refl Hd) as Ed.
  pose proof (proj2 (successful_save_clears_editor_keeps_queue cfg0 wsave0 _ H) eq_refl Hr) as Er.
  rewrite Ed, Er; exact (conj H (conj eq_refl (conj eq_refl (conj eq_refl eq_refl)))).
Defined.

Lemma relay_sync_sends_queue_in_order_witness :
  Forall (fun o => o = Success) (firstn 2 [Success; Success; Fault err0]) /\
  w_pending (snd (Relay.syncOfflineMemosToSheet cfg0
    (world0 [] true false (Some [memo0; memo1]) [] [Success; Success; Fault err0]))) = None /\
  w_net (snd (Relay.syncOfflineMemosToSheet cfg0
    (world0 [] true false (Some [memo0; memo1]) [] [Success; Success; Fault err0]))) = [Fault err0].
Proof.
  assert (Hn : Forall (fun o => o = Success) (firstn 2 [Success; Success; Fault err0]))
    by (repeat constructor).
  rewrite (relay_sync_sends_queue_in_order cfg0
    (world0 [] true false (Some [memo0; memo1]) [] [Success; Success; Fault err0])
    [memo0; memo1] eq_refl eq_refl ltac:(discriminate) Hn).
  exact (conj Hn (conj eq_refl eq_refl)).
Defined.

Lemma relay_sync_stops_at_first_failure_witness :
  [Success; Fault err0; Success] = repeat Success (List.length [memo0]) ++ Fault err0 :: [Success] /\
  Relay.syncOfflineMemosToSheet cfg0
    (world0 [] true false (Some [memo0; memo1; memo2]) [] [Success; Fault err0; Success]) =
    (Ok tt, mkWorld [] false true false false (Some [memo0; memo1; memo2]) [] 0 [Success] clock0
      [EvStatus (u "同期中...") (u "syncing"); relay_sent cfg0 clock0 true memo0;
          relay_sent cfg0 clock0 false memo1;
          EvStatus (u "同期失敗（後で再試行します）") (u "offline")]).
Proof.
  assert (Hn : [Success; Fault err0; Success] =
    repeat Success (List.length [memo0]) ++ Fault err0 :: [Success]) by reflexivity.
  split; [exact Hn|].
  exact (relay_sync_stops_at_first_failure cfg0
    (world0 [] true false (Some [memo0; memo1; memo2]) [] [Success; Fault err0; Success])
    [memo0] memo1 [memo2] err0 [Success] eq_refl eq_refl Hn).
Defined.

Lemma relay_call_format_witness :
  (1000 <= c_year clock0 <= 9999 /\ 0 <= c_month clock0 <= 11 /\ 1 <= c_day clock0 <= 31 /\
   0 <= c_hour clock0 <= 23 /\ 0 <= c_minute clock0 <= 59) /\
  exists ok,
    snd (Relay.sendMemoToSheet cfg0 (u "hi") wsync0) =
      with_net_trace wsync0 []
        [EvNet (ReqRelay (cfg_gas_url cfg0) (u "hi")
                  (four_digits 2026 ++ u "/" ++ two_digits 2 ++ u "/" ++ two_digits 20 ++
                   u " " ++ two_digits 9 ++ u ":" ++ two_digits 5)) ok] /\
    (fst (Relay.sendMemoToSheet cfg0 (u "hi") wsync0) = Ok tt <-> ok = true).
Proof.
  assert (Hy : 1000 <= c_year clock0 <= 9999) by (cbn; lia).
  assert (Hm : 0 <= c_month clock0 <= 11) by (cbn; lia).
  assert (Hd : 1 <= c_day clock0 <= 31) by (cbn; lia).
  assert (Hh : 0 <= c_hour clock0 <= 23) by (cbn; lia).
  assert (Hi : 0 <= c_minute clock0 <= 59) by (cbn; lia).
  exact (conj (conj Hy (conj Hm (conj Hd (conj Hh Hi))))
              (relay_call_format cfg0 (u "hi") wsync0 Hy Hm Hd Hh Hi)).
Defined.

Lemma drive_save_call_sequence_witness :
  Drive.saveToDrive cfg0 (u "hi") wday0 = (Ok tt, snd (Drive.saveToDrive cfg0 (u "hi") wday0)) /\
  w_trace (snd (Drive.saveToDrive cfg0 (u "hi") wday0)) =
    [EvNet (ReqList (u "2026-02-20.md") (u "FOLDER")) true;
     EvNet (ReqGet (u "f0")) true;
     EvNet (ReqPatch (u "f0")
              (Drive.multipart (Drive.update_meta (u "2026-02-20.md"))
                 (u "A" ++ nl ++ u "## 09:05" ++ nl ++ u "hi"))) true].
Proof.
  assert (H : Drive.saveToDrive cfg0 (u "hi") wday0 =
    (Ok tt, snd (Drive.saveToDrive cfg0 (u "hi") wday0))) by (vm_compute; reflexivity).
  split; [exact H|].
  rewrite (drive_save_call_sequence cfg0 (u "hi") wday0 _ H).
  vm_compute; reflexivity.
Defined.

(** The day's document exists; listing it goes through, reading it faults. *)
Definition wgetfail0 : world := world0 [] true true None [day_file0 (u "A")] [Success; Fault err0].

Lemma drive_save_failure_changes_nothing_witness :
  Drive.saveToDrive cfg0 (u "hi") wgetfail0 =
    (Exc err0, snd (Drive.saveToDrive cfg0 (u "hi") wgetfail0)) /\
  w_drive (snd (Drive.saveToDrive cfg0 (u "hi") wgetfail0)) = [day_file0 (u "A")] /\
  exists l r, w_trace (snd (Drive.saveToDrive cfg0 (u "hi") wgetfail0)) = [] ++ l ++ [EvNet r false].
Proof.
  assert (H : Drive.saveToDrive cfg0 (u "hi") wgetfail0 =
    (Exc err0, snd (Drive.saveToDrive cfg0 (u "hi") wgetfail0))) by (vm_compute; reflexivity).
  exact (conj H (drive_save_failure_changes_nothing cfg0 (u "hi") wgetfail0 _ err0 H)).
Defined.

(** The same day as [clock0], late in the evening. *)
Definition clock1 : clock :=
  mkClock 2026 1 20 23 59 (u "2026-02-20T14:59:00.000Z").

Lemma day_names_distinct_witness :
  Drive.getFileName clock0 = Drive.getFileName clock1 /\
  c_year clock0 = c_year clock1 /\ c_month clock0 = c_month clock1 /\ c_day clock0 = c_day clock1.
Proof.
  assert (H : Drive.getFileName clock0 = Drive.getFileName clock1) by (vm_compute; reflexivity).
  assert (Hy : 1000 <= c_year clock0 <= 9999) by (cbn; lia).
  assert (Hm : 0 <= c_month clock0 <= 11) by (cbn; lia).
  assert (Hd : 1 <= c_day clock0 <= 31) by (cbn; lia).
  assert (Hy' : 1000 <= c_year clock1 <= 9999) by (cbn; lia).
  assert (Hm' : 0 <= c_month clock1 <= 11) by (cbn; lia).
  assert (Hd' : 1 <= c_day clock1 <= 31) by (cbn; lia).
  exact (conj H (day_names_distinct clock0 clock1 Hy Hm Hd Hy' Hm' Hd' H)).
Defined.

Lemma drive_sync_clears_after_one_combined_save_witness :
  w_pending (snd (Drive.syncPendingData cfg0 wsync0)) = None /\
  exists w2,
    Drive.saveToDrive cfg0 (Drive.combined_text [memo0])
      (snd (update_status (u "Syncing...") (u "syncing") wsync0)) = (Ok tt, w2) /\
    w_drive (snd (Drive.syncPendingData cfg0 wsync0)) = w_drive w2 /\
    w_trace (snd (Drive.syncPendingData cfg0 wsync0)) =
      w_trace w2 ++ [EvStoreRemove; EvStatus (u "Synced!") (u "online");
                     EvTimer 2000 (u "ONLINE") (u "online")].
Proof.
  assert (H : w_pending (snd (Drive.syncPendingData cfg0 wsync0)) = None)
    by (vm_compute; reflexivity).
  exact (conj H (drive_sync_clears_after_one_combined_save cfg0 wsync0 [memo0]
                   eq_refl eq_refl eq_refl ltac:(discriminate) H)).
Defined.

Lemma local_events_make_no_call_witness :
  (let w' := snd (DrivePage.dispatch cfg0 (UResult sr_final0) woff0) in
   exists l, w_trace w' = w_trace woff0 ++ l /\ net_free l /\
     w_pending w' = w_pending woff0 /\ w_drive w' = w_drive woff0 /\
     w_fresh w' = w_fresh woff0 /\ w_net w' = w_net woff0) /\
  (let w' := snd (RelayPage.dispatch cfg0 (UResult sr_final0) woff0) in
   exists l, w_trace w' = w_trace woff0 ++ l /\ net_free l /\
     w_pending w' = w_pending woff0 /\ w_drive w' = w_drive woff0 /\
     w_fresh w' = w_fresh woff0 /\ w_net w' = w_net woff0).
Proof. exact (local_events_make_no_call cfg0 (UResult sr_final0) woff0 I). Defined.

Lemma relay_load_status_then_sync_witness :
  RelayPage.on_load cfg0 false woff0 =
    (Ok tt, with_net_trace woff0 [] [EvStatus (u "OFFLINE") (u "offline")]) /\
  w_pending (snd (RelayPage.on_load cfg0 true (world0 [] true false (Some [memo0]) [] []))) = None.
Proof.
  destruct (relay_load_status_then_sync cfg0 false woff0) as [Hoff _].
  destruct (relay_load_status_then_sync cfg0 true (world0 [] true false (Some [memo0]) [] []))
    as [_ Hon].
  rewrite (Hon [memo0] eq_refl eq_refl ltac:(discriminate) ltac:(constructor)).
  exact (conj (Hoff (or_introl eq_refl)) eq_refl).
Defined.

(** [memo0]'s text, queued an hour later. *)
Definition memo0' : pending_memo := mkMemo (u "牛乳") (u "2026-02-19T11:00:00.000Z").

Lemma syncs_ignore_queued_timestamps_witness :
  map pm_text [memo0] = map pm_text [memo0'] /\
  (fst (Drive.syncPendingData cfg0 (with_pending (Some [memo0']) wsync0)) =
     fst (Drive.syncPendingData cfg0 wsync0) /\
   same_but_queue (snd (Drive.syncPendingData cfg0 (with_pending (Some [memo0']) wsync0)))
                  (snd (Drive.syncPendingData cfg0 wsync0))) /\
  (fst (Relay.syncOfflineMemosToSheet cfg0 (with_pending (Some [memo0']) wsync0)) =
     fst (Relay.syncOfflineMemosToSheet cfg0 wsync0) /\
   same_but_queue (snd (Relay.syncOfflineMemosToSheet cfg0 (with_pending (Some [memo0']) wsync0)))
                  (snd (Relay.syncOfflineMemosToSheet cfg0 wsync0))).
Proof.
  assert (H : map pm_text [memo0] = map pm_text [memo0']) by reflexivity.
  exact (conj H (syncs_ignore_queued_timestamps cfg0 wsync0 [memo0] [memo0'] eq_refl H)).
Defined.
